(** * A shallow embedding of the request dispatch, envelope decoding and
    credential lifecycle of the mangadex-rs client.

    The Rust sources modelled here are [src/client.rs] ([Client],
    [send_request], [login], [logout], [refresh_tokens], [set_tokens],
    [get_tokens], [ping], the [impl_endpoint!] macro), [src/common.rs]
    ([ApiResultDef], [ApiResult], [Results], [FromResponse], [Endpoint]),
    [src/errors.rs] ([Errors], [ApiErrors], [ApiError]),
    [src/api/auth.rs] (the [Login], [CheckToken], [Logout] and [RefreshToken] endpoints)
    and [src/schema/auth.rs] ([AuthTokens], [LoginResponse],
    [RefreshTokenResponse]).

    The libraries the code calls (serde's derived deserializers, serde_json,
    url, uuid, reqwest) are modelled as far as the code relies on them. *)

From Stdlib Require Import String Ascii List ZArith Bool Lia.
Import ListNotations.
Open Scope string_scope.
Open Scope Z_scope.

(** Rust's [std::result::Result]. *)
Inductive result (T E : Type) : Type :=
| Ok (v : T)
| Err (e : E).
Arguments Ok {T E} v.
Arguments Err {T E} e.

Definition result_bind {T U E} (m : result T E) (k : T -> result U E) : result U E :=
  match m with
  | Ok v => k v
  | Err e => Err e
  end.

(** The [?] operator inside a function returning [Result]. *)
Notation "x <-? m ;; k" := (result_bind m (fun x => k))
  (at level 61, m at next level, right associativity).

Definition map_err {T E F} (f : E -> F) (r : result T E) : result T F :=
  match r with
  | Ok v => Ok v
  | Err e => Err (f e)
  end.

Definition is_ok {T E} (r : result T E) : bool :=
  match r with Ok _ => true | Err _ => false end.

(** ** JSON values, as serde_json hands them to a deserializer *)

Set Warnings "-register-all".

Inductive json : Type :=
| JNull
| JBool (b : bool)
| JInt (z : Z)                (* a number without fraction or exponent *)
| JFloat (repr : string)      (* any other number, kept as its text *)
| JString (s : string)
| JArray (items : list json)
| JObject (entries : list (string * json)).

(** The errors of a serde deserializer ([serde::de::Error]) that the
    derived code raises. *)
Inductive DeError : Type :=
| MissingField (field : string)
| DuplicateField (field : string)
| UnknownVariant (variant : string)
| InvalidType
| InvalidValue
| InvalidLength (len : nat).

(** [serde::Deserialize]: a type that can be read from a JSON value. *)
Class Deserialize (A : Type) := deserialize : json -> result A DeError.

(** *** Primitive deserializers *)

Definition de_string (j : json) : result string DeError :=
  match j with
  | JString s => Ok s
  | _ => Err InvalidType
  end.

Definition i32_min : Z := - 2147483648.
Definition i32_max : Z := 2147483647.

(** [i32]: an integer out of range is an [invalid_value]. *)
Definition de_i32 (j : json) : result Z DeError :=
  match j with
  | JInt z => if (i32_min <=? z) && (z <=? i32_max) then Ok z else Err InvalidValue
  | _ => Err InvalidType
  end.

(** [Option<A>]: [null] is [None]. *)
Definition de_option {A} (d : json -> result A DeError) (j : json)
  : result (option A) DeError :=
  match j with
  | JNull => Ok None
  | _ => v <-? d j ;; Ok (Some v)
  end.

Fixpoint de_list_items {A} (d : json -> result A DeError) (items : list json)
  : result (list A) DeError :=
  match items with
  | [] => Ok []
  | x :: xs => v <-? d x ;; vs <-? de_list_items d xs ;; Ok (v :: vs)
  end.

(** [Vec<A>]: a JSON array, each element read in turn. *)
Definition de_vec {A} (d : json -> result A DeError) (j : json)
  : result (list A) DeError :=
  match j with
  | JArray items => de_list_items d items
  | _ => Err InvalidType
  end.

(** *** Structs with [#[derive(Deserialize)]]

    A derived struct deserializer accepts a map (fields by name, unknown keys
    skipped, a repeated field is a [duplicate_field] error) or a sequence
    (fields by position, too few elements is an [invalid_length] error
    unless the missing fields have a default, too many is an error too).
    [fields_of] gathers the raw value of each field; the struct decoders
    then read each slot. The derived code reads each value as soon as it
    meets its key, so when several things are wrong the first error it
    reports may differ from the one reported here; whether decoding
    succeeds, and with which value, is the same. *)

Inductive FieldKind := Required | Optional | Defaulted.

Definition Slots := list (string * json).

Fixpoint slot (s : Slots) (f : string) : option json :=
  match s with
  | [] => None
  | (k, v) :: s' => if String.eqb k f then Some v else slot s' f
  end.

Fixpoint collect_fields (names : list string) (entries : list (string * json))
    (acc : Slots) : result Slots DeError :=
  match entries with
  | [] => Ok acc
  | (k, v) :: rest =>
      if existsb (String.eqb k) names then
        match slot acc k with
        | Some _ => Err (DuplicateField k)
        | None => collect_fields names rest ((k, v) :: acc)
        end
      else collect_fields names rest acc
  end.

Fixpoint collect_positional (spec : list (string * FieldKind)) (items : list json)
    (i : nat) : result Slots DeError :=
  match spec, items with
  | [], [] => Ok []
  | [], _ :: _ => Err (InvalidLength i)
  | (f, _) :: spec', x :: items' =>
      s <-? collect_positional spec' items' (S i) ;; Ok ((f, x) :: s)
  | (f, Defaulted) :: spec', [] => collect_positional spec' [] (S i)
  | (_, _) :: _, [] => Err (InvalidLength i)
  end.

Definition fields_of (spec : list (string * FieldKind)) (j : json)
  : result Slots DeError :=
  match j with
  | JObject entries => collect_fields (map fst spec) entries []
  | JArray items => collect_positional spec items 0
  | _ => Err InvalidType
  end.

Definition required {A} (f : string) (d : json -> result A DeError) (s : Slots)
  : result A DeError :=
  match slot s f with
  | Some v => d v
  | None => Err (MissingField f)
  end.

(** A missing [Option] field is [None]. *)
Definition optional {A} (f : string) (d : json -> result A DeError) (s : Slots)
  : result (option A) DeError :=
  match slot s f with
  | Some v => de_option d v
  | None => Ok None
  end.

(** A missing [#[serde(default)]] field takes the default. *)
Definition defaulted {A} (f : string) (dflt : A) (d : json -> result A DeError)
    (s : Slots) : result A DeError :=
  match slot s f with
  | Some v => d v
  | None => Ok dflt
  end.

(** *** [uuid::Uuid], read from its text ([Uuid::parse_str]): the simple
    form (32 hex digits), the hyphenated form (8-4-4-4-12) and the URN form
    ([urn:uuid:] followed by the hyphenated form). *)

Record Uuid := mk_uuid { uuid_value : Z }.

Definition hex_val (c : ascii) : option Z :=
  let n := Z.of_nat (nat_of_ascii c) in
  if (48 <=? n) && (n <=? 57) then Some (n - 48)
  else if (97 <=? n) && (n <=? 102) then Some (n - 87)
  else if (65 <=? n) && (n <=? 70) then Some (n - 55)
  else None.

Fixpoint hex_digits (cs : list ascii) (acc : Z) : option Z :=
  match cs with
  | [] => Some acc
  | c :: cs' =>
      match hex_val c with
      | Some d => hex_digits cs' (acc * 16 + d)
      | None => None
      end
  end.

(** The digit groups of the hyphenated form, with their lengths. *)
Fixpoint hyphen_groups (lens : list nat) (cs : list ascii) : option (list ascii) :=
  match lens with
  | [] => None
  | [n] => if Nat.eqb (List.length cs) n then Some cs else None
  | n :: lens' =>
      match skipn n cs with
      | c :: rest =>
          if Ascii.eqb c "-"%char && Nat.eqb (List.length (firstn n cs)) n then
            match hyphen_groups lens' rest with
            | Some ds => Some (firstn n cs ++ ds)%list
            | None => None
            end
          else None
      | [] => None
      end
  end.

Definition uuid_of_digits (ds : list ascii) : option Uuid :=
  if Nat.eqb (List.length ds) 32 then
    match hex_digits ds 0 with
    | Some v => Some (mk_uuid v)
    | None => None
    end
  else None.

Definition parse_uuid_chars (cs : list ascii) : option Uuid :=
  if Nat.eqb (List.length cs) 32 then uuid_of_digits cs
  else match hyphen_groups [8; 4; 4; 4; 12]%nat cs with
       | Some ds => uuid_of_digits ds
       | None => None
       end.

Definition urn_prefix : list ascii := list_ascii_of_string "urn:uuid:".

Definition Uuid_parse_str (s : string) : option Uuid :=
  let cs := list_ascii_of_string s in
  if Nat.eqb (List.length cs) 45
     && (if list_eq_dec ascii_dec (firstn 9 cs) urn_prefix then true else false)
  then parse_uuid_chars (skipn 9 cs)
  else parse_uuid_chars cs.

(** A [Uuid] field is a string that must parse. *)
Definition de_uuid (j : json) : result Uuid DeError :=
  match j with
  | JString s =>
      match Uuid_parse_str s with
      | Some u => Ok u
      | None => Err InvalidValue
      end
  | _ => Err InvalidType
  end.

(** ** [src/errors.rs]: [ApiError] and [ApiErrors] *)

Record ApiError := {
  id : Uuid;
  status : Z;                  (* i32 *)
  title : option string;
  detail : option string
}.

Definition ApiError_fields : list (string * FieldKind) :=
  [("id", Required); ("status", Required); ("title", Optional); ("detail", Optional)].

#[export] Instance Deserialize_ApiError : Deserialize ApiError := fun j =>
  s <-? fields_of ApiError_fields j ;;
  id <-? required "id" de_uuid s ;;
  status <-? required "status" de_i32 s ;;
  title <-? optional "title" de_string s ;;
  detail <-? optional "detail" de_string s ;;
  Ok {| id := id; status := status; title := title; detail := detail |}.

(** [#[serde(default)] pub errors: Vec<ApiError>] *)
Record ApiErrors := { errors : list ApiError }.

Definition ApiErrors_fields : list (string * FieldKind) := [("errors", Defaulted)].

#[export] Instance Deserialize_ApiErrors : Deserialize ApiErrors := fun j =>
  s <-? fields_of ApiErrors_fields j ;;
  errors <-? defaulted "errors" [] (de_vec deserialize) s ;;
  Ok {| errors := errors |}.

(** ** [src/schema/auth.rs] *)

Record AuthTokens := {
  session : string;
  refresh : string
}.

#[export] Instance Deserialize_AuthTokens : Deserialize AuthTokens := fun j =>
  s <-? fields_of [("session", Required); ("refresh", Required)] j ;;
  session <-? required "session" de_string s ;;
  refresh <-? required "refresh" de_string s ;;
  Ok {| session := session; refresh := refresh |}.

(** [#[serde(rename = "token")] pub tokens: AuthTokens] *)
Module LoginResponse.
Record LoginResponse := { tokens : AuthTokens }.
End LoginResponse.
Abbreviation LoginResponse := LoginResponse.LoginResponse.

#[export] Instance Deserialize_LoginResponse : Deserialize LoginResponse := fun j =>
  s <-? fields_of [("token", Required)] j ;;
  t <-? required "token" deserialize s ;;
  Ok {| LoginResponse.tokens := t |}.

Module RefreshTokenResponse.
Record RefreshTokenResponse := {
  tokens : AuthTokens;
  message : option string
}.
End RefreshTokenResponse.
Abbreviation RefreshTokenResponse := RefreshTokenResponse.RefreshTokenResponse.

#[export] Instance Deserialize_RefreshTokenResponse : Deserialize RefreshTokenResponse :=
  fun j =>
  s <-? fields_of [("token", Required); ("message", Optional)] j ;;
  t <-? required "token" deserialize s ;;
  m <-? optional "message" de_string s ;;
  Ok {| RefreshTokenResponse.tokens := t; RefreshTokenResponse.message := m |}.

(** [bool] *)
Definition de_bool (j : json) : result bool DeError :=
  match j with
  | JBool b => Ok b
  | _ => Err InvalidType
  end.

(** [#[serde(rename_all = "camelCase")] pub struct CheckTokenResponse
    { is_authenticated: bool, roles: Vec<String>, permissions: Vec<String> }] *)
Record CheckTokenResponse := {
  is_authenticated : bool;
  roles : list string;
  permissions : list string
}.

Definition CheckTokenResponse_fields : list (string * FieldKind) :=
  [("isAuthenticated", Required); ("roles", Required); ("permissions", Required)].

#[export] Instance Deserialize_CheckTokenResponse : Deserialize CheckTokenResponse := fun j =>
  s <-? fields_of CheckTokenResponse_fields j ;;
  a <-? required "isAuthenticated" de_bool s ;;
  r <-? required "roles" (de_vec de_string) s ;;
  p <-? required "permissions" (de_vec de_string) s ;;
  Ok {| is_authenticated := a; roles := r; permissions := p |}.

(** [pub struct NoData;] a unit struct. Inside an envelope it is read
    from the content serde buffered ([ContentDeserializer::
    deserialize_unit_struct]): an empty map (the object with only its
    [result] entry), an empty sequence (the positional [["ok"]]) or a unit
    ([null]) all give [NoData]. *)
Inductive NoData := mk_NoData.

#[export] Instance Deserialize_NoData : Deserialize NoData := fun j =>
  match j with
  | JObject [] | JArray [] | JNull => Ok mk_NoData
  | _ => Err InvalidType
  end.

(** ** [src/common.rs]: the response envelope *)

(** The two variants of [ApiResultDef], by their serde names. *)
Inductive ApiResultTag := TagOk | TagError.

(** The variant identifier: ["ok"] or ["error"]; any other string is an
    [unknown_variant] error, anything but a string an [invalid_type]. *)
Definition de_tag (j : json) : result ApiResultTag DeError :=
  match j with
  | JString s =>
      if String.eqb s "ok" then Ok TagOk
      else if String.eqb s "error" then Ok TagError
      else Err (UnknownVariant s)
  | _ => Err InvalidType
  end.

Definition tag_name : string := "result".

(** serde's [TaggedContentVisitor::visit_map] for [#[serde(tag = "result")]]:
    the entries are read left to right; the [result] entry is the tag (a
    second one is a [duplicate_field] error); the other entries are kept, in
    order, as the content the variant is then read from. *)
Fixpoint tagged_visit_map (entries : list (string * json))
    (tag : option ApiResultTag) (rest : list (string * json))
    : result (ApiResultTag * json) DeError :=
  match entries with
  | [] =>
      match tag with
      | Some t => Ok (t, JObject (rev rest))
      | None => Err (MissingField tag_name)
      end
  | (k, v) :: es =>
      if String.eqb k tag_name then
        match tag with
        | Some _ => Err (DuplicateField tag_name)
        | None => t <-? de_tag v ;; tagged_visit_map es (Some t) rest
        end
      else tagged_visit_map es tag ((k, v) :: rest)
  end.

(** serde's [TaggedContentVisitor]: a map as above; a sequence is read
    positionally ([visit_seq]): its first element is the tag and the
    remaining elements are the content; any other JSON value is an
    [invalid_type] error. *)
Definition tagged_content (j : json) : result (ApiResultTag * json) DeError :=
  match j with
  | JObject entries => tagged_visit_map entries None []
  | JArray (t :: rest) => tg <-? de_tag t ;; Ok (tg, JArray rest)
  | JArray [] => Err (MissingField tag_name)
  | _ => Err InvalidType
  end.

(** [#[serde(tag = "result", remote = "std::result::Result")] enum ApiResultDef<T, E>
    { #[serde(rename = "ok")] Ok(T), #[serde(rename = "error")] Err(E) }]:
    the newtype variant is read from the content. *)
Definition ApiResultDef_deserialize {T E} `{Deserialize T} `{Deserialize E} (j : json)
  : result (result T E) DeError :=
  tc <-? tagged_content j ;;
  let '(tg, content) := tc in
  match tg with
  | TagOk => v <-? deserialize content ;; Ok (Ok v)
  | TagError => e <-? deserialize content ;; Ok (Err e)
  end.

(** [pub(crate) struct ApiResult<T, E = ApiErrors>(#[serde(with = "ApiResultDef")]
    std::result::Result<T, E>);] serde_json reads a newtype struct as its
    content. *)
Record ApiResult (T E : Type) := mk_ApiResult { api_result_0 : result T E }.
Arguments mk_ApiResult {T E} _.
Arguments api_result_0 {T E} _.

#[export] Instance Deserialize_ApiResult {T E} `{Deserialize T} `{Deserialize E}
  : Deserialize (ApiResult T E) := fun j =>
  r <-? ApiResultDef_deserialize j ;; Ok (mk_ApiResult r).

Definition into_result {T E} (a : ApiResult T E) : result T E := api_result_0 a.

(** [pub struct Results<T> { results: Vec<T>, limit: i32, offset: i32, total: i32 }] *)
Record Results (T : Type) := mk_Results {
  results : list T;
  limit : Z;
  offset : Z;
  total : Z
}.
Arguments mk_Results {T} _ _ _ _.
Arguments results {T} _.
Arguments limit {T} _.
Arguments offset {T} _.
Arguments total {T} _.

Definition Results_fields : list (string * FieldKind) :=
  [("results", Required); ("limit", Required); ("offset", Required); ("total", Required)].

#[export] Instance Deserialize_Results {T} `{Deserialize T} : Deserialize (Results T) :=
  fun j =>
  s <-? fields_of Results_fields j ;;
  rs <-? required "results" (de_vec deserialize) s ;;
  l <-? required "limit" de_i32 s ;;
  o <-? required "offset" de_i32 s ;;
  t <-? required "total" de_i32 s ;;
  Ok (mk_Results rs l o t).

#[export] Instance Deserialize_Vec {T} `{Deserialize T} : Deserialize (list T) :=
  de_vec deserialize.

(** ** [src/errors.rs]: [Errors] *)

(** [url::ParseError], the cases the model of [Url::join] below raises. *)
Inductive ParseError := RelativeUrlWithCannotBeABaseBase.

(** [reqwest::Error]: a failure to send the request or receive the
    response, or a failure to read the body as the expected JSON. *)
Inductive ReqwestError :=
| Transport (what : string)
| Decode (e : option DeError).   (* [None]: the body is not JSON *)

Inductive Errors :=
| ParseUrl (e : ParseError)
| Http (e : ReqwestError)
| MissingTokens
| HttpWithBody (e : ApiErrors)
| PingError.

(** [pub type Result<T, E = Errors> = std::result::Result<T, E>;] *)
Abbreviation Result T := (result T Errors).

(** ** [FromResponse]: the wire type an endpoint's response is read as, and
    its conversion to the endpoint's [Response] type. *)
Class FromResponse (R : Type) := {
  FR_Response : Type;
  FR_deserialize : Deserialize FR_Response;
  from_response : FR_Response -> R
}.
Arguments FR_Response R {_}.

(** [impl<T> FromResponse for Result<T, Errors>] *)
#[export] Instance FromResponse_Result {T} `{Deserialize T} : FromResponse (Result T) := {
  FR_Response := ApiResult T ApiErrors;
  FR_deserialize := _;
  from_response value := map_err HttpWithBody (into_result value)
}.

(** [impl<T> FromResponse for Results<Result<T, Errors>>] *)
#[export] Instance FromResponse_Results {T} `{Deserialize T}
  : FromResponse (Results (Result T)) := {
  FR_Response := Results (ApiResult T ApiErrors);
  FR_deserialize := _;
  from_response value :=
    mk_Results (map (fun r => map_err HttpWithBody (into_result r)) (results value))
      (limit value) (offset value) (total value)
}.

(** [impl<T> FromResponse for Vec<Result<T, Errors>>] *)
#[export] Instance FromResponse_Vec {T} `{Deserialize T}
  : FromResponse (list (Result T)) := {
  FR_Response := list (ApiResult T ApiErrors);
  FR_deserialize := _;
  from_response value := map (fun r => map_err HttpWithBody (into_result r)) value
}.

(** ** HTTP: [url::Url], the request builder and the response *)

Record Url := mk_Url {
  scheme : string;
  cannot_be_a_base : bool;     (* e.g. [mailto:x], [data:...] *)
  host : string;
  url_path : string;
  url_query : option string
}.

(** [Url::join] on the inputs the client passes it: absolute-path
    references (every endpoint path, and ["/ping"], starts with a slash).
    Resolving a relative reference against a URL that cannot be a base is
    the [RelativeUrlWithCannotBeABaseBase] error; otherwise the reference
    replaces path and query. *)
Definition Url_join (base : Url) (input : string) : result Url ParseError :=
  if cannot_be_a_base base then Err RelativeUrlWithCannotBeABaseBase
  else Ok {| scheme := scheme base; cannot_be_a_base := false; host := host base;
             url_path := input; url_query := None |}.

(** [UrlSerdeQS::query_qs], the query already serialized by serde_qs. *)
Definition query_qs (u : Url) (q : string) : Url :=
  {| scheme := scheme u; cannot_be_a_base := cannot_be_a_base u; host := host u;
     url_path := url_path u; url_query := Some q |}.

Inductive Method := GET | POST | PUT | DELETE.

(** A [reqwest::multipart::Form], as its named parts. *)
Definition Form := list (string * string).

(** A [reqwest::RequestBuilder]: method, URL, JSON body, multipart form and
    bearer [Authorization] header. *)
Record Request := mk_Request {
  req_method : Method;
  req_url : Url;
  req_body : option json;
  req_multipart : option Form;
  req_bearer : option string
}.

Definition request (m : Method) (u : Url) : Request := mk_Request m u None None None.

Definition with_json (r : Request) (b : json) : Request :=
  mk_Request (req_method r) (req_url r) (Some b) (req_multipart r) (req_bearer r).

Definition with_multipart (r : Request) (f : Form) : Request :=
  mk_Request (req_method r) (req_url r) (req_body r) (Some f) (req_bearer r).

Definition bearer_auth (r : Request) (token : string) : Request :=
  mk_Request (req_method r) (req_url r) (req_body r) (req_multipart r) (Some token).

(** A [reqwest::Response]: its status and body text. [send] does not turn
    an error status into an error. *)
Record Response := mk_Response { res_status : Z; res_text : string }.

(** ** [trait Endpoint] of [src/common.rs], with the trait's defaults:
    [method] GET, [require_auth] false, no query, body or multipart form.
    [R] is the endpoint's [Response] type. *)
Record Endpoint (R : Type) := mk_Endpoint {
  ep_method : Method;
  ep_path : string;
  ep_require_auth : bool;
  ep_query : option string;
  ep_body : option json;
  ep_multipart : option Form
}.
Arguments mk_Endpoint {R} _ _ _ _ _ _.
Arguments ep_method {R} _.
Arguments ep_path {R} _.
Arguments ep_require_auth {R} _.
Arguments ep_query {R} _.
Arguments ep_body {R} _.
Arguments ep_multipart {R} _.

(** ** [pub struct Client] of [src/client.rs]: the base URL and the stored
    tokens (the [reqwest::Client] it also holds carries no state the
    modelled code reads). *)
Record Client := mk_Client {
  base_url : Url;
  tokens : option AuthTokens
}.

(** The world a client call runs in: the client, the remote server (how it
    answers each request, or the transport error) and the requests sent so
    far. *)
Record World := mk_World {
  client : Client;
  net : Request -> result Response ReqwestError;
  sent : list Request
}.

(** An [async fn] returning [Result<A>]: it may read and replace the client
    and send requests; [?] stops at the first error. *)
Definition ST (A : Type) := World -> World * Result A.

Definition st_ret {A} (a : A) : ST A := fun w => (w, Ok a).

Definition st_bind {A B} (m : ST A) (k : A -> ST B) : ST B := fun w =>
  let (w', r) := m w in
  match r with
  | Ok a => k a w'
  | Err e => (w', Err e)
  end.

Notation "x <- m ;; k" := (st_bind m (fun x => k))
  (at level 61, m at next level, right associativity).

Definition st_fail {A} (e : Errors) : ST A := fun w => (w, Err e).

(** [r?] on a value [r : Result<A>]. *)
Definition st_lift {A} (r : Result A) : ST A := fun w => (w, r).

Definition get_client : ST Client := fun w => (w, Ok (client w)).

(** [self.http.request(..).send().await?]: one request goes out. *)
Definition http_send (req : Request) : ST Response := fun w =>
  (mk_World (client w) (net w) (sent w ++ [req])%list,
   map_err Http (net w req)).

(** [pub fn get_tokens(&self) -> Option<&AuthTokens>] *)
Definition get_tokens (self : Client) : option AuthTokens := tokens self.

(** [pub fn set_tokens(&mut self, tokens: Option<AuthTokens>)] *)
Definition set_tokens (t : option AuthTokens) : ST unit := fun w =>
  (mk_World (mk_Client (base_url (client w)) t) (net w) (sent w), Ok tt).

(** ** Dispatch and the credential lifecycle *)

Section Dispatch.

(** serde_json's reading of a response body as a JSON value ([None] when
    it is not JSON). *)
Variable parse_json : string -> option json.

(** [res.json::<W>().await?] *)
Definition response_json {W} `{Deserialize W} (res : Response) : ST W :=
  st_lift
    (match parse_json (res_text res) with
     | None => Err (Http (Decode None))
     | Some j => map_err (fun e => Http (Decode (Some e))) (deserialize j)
     end).

(** [pub(crate) async fn send_request<E: Endpoint>(&self, endpoint: &E)
    -> Result<E::Response>] of [src/client.rs]. *)
Definition send_request {R} `{FR : FromResponse R} (endpoint : Endpoint R) : ST R :=
  self <- get_client ;;
  endpoint_url <- st_lift (map_err ParseUrl (Url_join (base_url self) (ep_path endpoint))) ;;
  let endpoint_url :=
    match ep_query endpoint with
    | Some query => query_qs endpoint_url query
    | None => endpoint_url
    end in
  let req := request (ep_method endpoint) endpoint_url in
  let req := match ep_body endpoint with Some body => with_json req body | None => req end in
  let req :=
    match ep_multipart endpoint with
    | Some multipart => with_multipart req multipart
    | None => req
    end in
  req <- match get_tokens self with
         | Some tokens => st_ret (bearer_auth req (session tokens))
         | None => if ep_require_auth endpoint then st_fail MissingTokens else st_ret req
         end ;;
  res <- http_send req ;;
  res <- @response_json (FR_Response R) FR_deserialize res ;;
  st_ret (from_response res).

(** The [send()] methods [impl_endpoint!] generates. *)

(** no tag: [client.send_request(self).await] *)
Definition send {R} `{FromResponse R} (e : Endpoint R) : ST R := send_request e.

(** [flatten_result]: [client.send_request(self).await?] *)
Definition send_flatten {T} `{Deserialize T} (e : Endpoint (Result T)) : ST T :=
  r <- send_request e ;; st_lift r.

(** [discard_result]: [client.send_request(self).await??; Ok(())] *)
Definition send_discard {T} `{Deserialize T} (e : Endpoint (Result T)) : ST unit :=
  r <- send_request e ;; _ <- st_lift r ;; st_ret tt.

(** [src/api/auth.rs] *)

Record Login := { username : string; password : string }.

(** [POST "/auth/login", #[body] Login<'_>, #[flatten_result] Result<LoginResponse>] *)
Definition Login_endpoint (l : Login) : Endpoint (Result LoginResponse) :=
  mk_Endpoint POST "/auth/login" false None
    (Some (JObject [("username", JString (username l)); ("password", JString (password l))]))
    None.

(** [POST "/auth/logout", #[no_data auth] Logout, #[discard_result] Result<NoData>] *)
Definition Logout_endpoint : Endpoint (Result NoData) :=
  mk_Endpoint POST "/auth/logout" true None None None.

(** [#[serde(rename = "token")] pub refresh_token: &'a str] *)
Record RefreshToken := { refresh_token : string }.

(** [POST "/auth/refresh", #[body] RefreshToken<'_>, #[flatten_result] Result<RefreshTokenResponse>] *)
Definition RefreshToken_endpoint (r : RefreshToken) : Endpoint (Result RefreshTokenResponse) :=
  mk_Endpoint POST "/auth/refresh" false None
    (Some (JObject [("token", JString (refresh_token r))])) None.

(** [GET "/auth/check", #[no_data auth] CheckToken, #[flatten_result] Result<CheckTokenResponse>] *)
Definition CheckToken_endpoint : Endpoint (Result CheckTokenResponse) :=
  mk_Endpoint GET "/auth/check" true None None None.

(** [CheckToken.send(&client)] *)
Definition check_token : ST CheckTokenResponse := send_flatten CheckToken_endpoint.

(** [pub async fn login(&mut self, username: &str, password: &str) -> Result<&AuthTokens>]:
    [Login { username, password }.send(self).await?.tokens], then
    [set_tokens(Some(tokens))] and [Ok(self.get_tokens().unwrap())], which is
    the pair just stored. *)
Definition login (username password : string) : ST AuthTokens :=
  r <- send_flatten (Login_endpoint {| username := username; password := password |}) ;;
  let tokens := LoginResponse.tokens r in
  _ <- set_tokens (Some tokens) ;;
  st_ret tokens.

(** [pub async fn logout(&mut self) -> Result<()>]:
    [Logout.send(self).await?; self.set_tokens(None); Ok(())] *)
Definition logout : ST unit :=
  _ <- send_discard Logout_endpoint ;;
  _ <- set_tokens None ;;
  st_ret tt.

(** [pub async fn refresh_tokens(&mut self) -> Result<RefreshTokenResponse>] *)
Definition refresh_tokens : ST RefreshTokenResponse :=
  self <- get_client ;;
  t <- st_lift (match get_tokens self with Some t => Ok t | None => Err MissingTokens end) ;;
  res <- send_flatten (RefreshToken_endpoint {| refresh_token := refresh t |}) ;;
  _ <- set_tokens (Some (RefreshTokenResponse.tokens res)) ;;
  st_ret res.

(** [pub async fn ping(&self) -> Result<()>] *)
Definition ping : ST unit :=
  self <- get_client ;;
  endpoint <- st_lift (map_err ParseUrl (Url_join (base_url self) "/ping")) ;;
  res <- http_send (request GET endpoint) ;;
  if String.eqb (res_text res) "pong" then st_ret tt else st_fail PingError.

(** The helpers of [impl Client] in [src/common.rs] that read a response
    directly. *)

(** [pub async fn json_api_result<T>(res: Response) -> Result<T>]:
    [Ok(res.json::<ApiResult<T, ApiErrors>>().await?.into_result()?)] *)
Definition json_api_result {T} `{Deserialize T} (res : Response) : ST T :=
  a <- response_json (W := ApiResult T ApiErrors) res ;;
  st_lift (map_err HttpWithBody (into_result a)).

(** [pub async fn json_api_results<T>(res: Response) -> Result<Results<Result<T>>>] *)
Definition json_api_results {T} `{Deserialize T} (res : Response)
  : ST (Results (Result T)) :=
  r <- response_json (W := Results (ApiResult T ApiErrors)) res ;;
  st_ret (mk_Results (map (fun r => map_err HttpWithBody (into_result r)) (results r))
            (limit r) (offset r) (total r)).

(** [pub async fn json_api_result_vec<T>(res: Response) -> Result<Vec<Result<T>>>] *)
Definition json_api_result_vec {T} `{Deserialize T} (res : Response)
  : ST (list (Result T)) :=
  r <- response_json (W := list (ApiResult T ApiErrors)) res ;;
  st_ret (map (fun r => map_err HttpWithBody (into_result r)) r).

(** The public interface of [Client] after construction: its methods, and
    any endpoint's request sent through it ([send_request], which every
    generated [send()] calls). *)
Inductive ClientOp : Type :=
| OpGetTokens
| OpSetTokens (t : option AuthTokens)
| OpLogin (username password : string)
| OpLogout
| OpRefreshTokens
| OpPing
| OpSendRequest (R : Type) (FR : FromResponse R) (e : Endpoint R).

Definition run_op (op : ClientOp) : ST unit :=
  match op with
  | OpGetTokens => self <- get_client ;; let _ := get_tokens self in st_ret tt
  | OpSetTokens t => set_tokens t
  | OpLogin u p => _ <- login u p ;; st_ret tt
  | OpLogout => logout
  | OpRefreshTokens => _ <- refresh_tokens ;; st_ret tt
  | OpPing => ping
  | OpSendRequest R FR e => _ <- @send_request R FR e ;; st_ret tt
  end.

End Dispatch.

(** ** Decoding a response body as an endpoint's [Response] type: what
    [send_request] does with the JSON value serde_json read. *)
Definition from_json (R : Type) `{FromResponse R} (j : json) : result R DeError :=
  v <-? @deserialize (FR_Response R) FR_deserialize j ;; Ok (from_response v).

(** ** Concrete values used by the examples *)

(** [Client::default()]'s base URL, [https://api.mangadex.org/]. *)
Definition default_base_url : Url :=
  {| scheme := "https"; cannot_be_a_base := false; host := "api.mangadex.org";
     url_path := "/"; url_query := None |}.

(** The base URL of [Client::new("mailto:x")]: [Url::parse] accepts it, and
    it cannot be a base. *)
Definition mailto_base_url : Url :=
  {| scheme := "mailto"; cannot_be_a_base := true; host := "";
     url_path := "x"; url_query := None |}.

Definition sample_tokens : AuthTokens := {| session := "sessiontoken"; refresh := "refreshtoken" |}.

Definition tokens_json (t : AuthTokens) : json :=
  JObject [("session", JString (session t)); ("refresh", JString (refresh t))].

(** A server that answers every request with a body named after the
    request's path, and a JSON reader that knows those bodies. *)
Definition echo_net (req : Request) : result Response ReqwestError :=
  Ok (mk_Response 200 (url_path (req_url req))).

Definition offline_net (req : Request) : result Response ReqwestError :=
  Err (Transport "connection refused").

Definition no_json (s : string) : option json := None.

Definition world_of (c : Client) (n : Request -> result Response ReqwestError) : World :=
  mk_World c n [].

(** The endpoint with its [require_auth] flag set to [b]. *)
Definition with_require_auth {R} (e : Endpoint R) (b : bool) : Endpoint R :=
  mk_Endpoint (ep_method e) (ep_path e) b (ep_query e) (ep_body e) (ep_multipart e).

Definition sample_tokens2 : AuthTokens :=
  {| session := "sessiontoken2"; refresh := "refreshtoken2" |}.

(** The bodies the [echo_net] server answers the auth endpoints with, as
    serde_json reads them: a login and a refresh that succeed, and a
    logout that succeeds. *)
Definition sample_parse (s : string) : option json :=
  if String.eqb s "/auth/login" then
    Some (JObject [("result", JString "ok"); ("token", tokens_json sample_tokens)])
  else if String.eqb s "/auth/refresh" then
    Some (JObject [("result", JString "ok"); ("token", tokens_json sample_tokens2);
                   ("message", JString "Token refreshed!")])
  else if String.eqb s "/auth/logout" then
    Some (JObject [("result", JString "ok")])
  else None.

Definition logged_in_world (n : Request -> result Response ReqwestError) : World :=
  world_of (mk_Client default_base_url (Some sample_tokens)) n.

Definition logged_out_world (n : Request -> result Response ReqwestError) : World :=
  world_of (mk_Client default_base_url None) n.

(** The operations of [Client] that write its [tokens] field. *)
Definition is_credential_op (op : ClientOp) : bool :=
  match op with
  | OpSetTokens _ | OpLogin _ _ | OpLogout | OpRefreshTokens => true
  | OpGetTokens | OpPing | OpSendRequest _ _ _ => false
  end.

(** The world after [set_tokens(t)]. *)
Definition with_tokens (w : World) (t : option AuthTokens) : World :=
  mk_World (mk_Client (base_url (client w)) t) (net w) (sent w).

(** The error envelope of the spec's example, as its entries. *)
Definition spec_error_entries : list (string * json) :=
  [("result", JString "error");
   ("errors", JArray [JObject [("id", JString "5e50fc7b-e185-45b1-a692-58e8091b22d2");
                               ("status", JInt 503);
                               ("title", JString "The service is unavailable");
                               ("detail", JString "Servers are burning")]])].

(** The request URL [https://api.mangadex.org<path>] of a client built on
    [default_base_url]. *)
Definition api_url (path : string) : Url :=
  {| scheme := "https"; cannot_be_a_base := false; host := "api.mangadex.org";
     url_path := path; url_query := None |}.

Definition sample_login : Login := {| username := "test"; password := "hunter1" |}.

Definition login_body : json :=
  JObject [("username", JString "test"); ("password", JString "hunter1")].

(** The login request of [sample_login], with the bearer [b]. *)
Definition login_request (b : option string) : Request :=
  mk_Request POST (api_url "/auth/login") (Some login_body) None b.

(** Endpoints sending the same request as [Login], read as a page and as a
    bare array. *)
Definition login_as_page : Endpoint (Results (Result LoginResponse)) :=
  mk_Endpoint POST "/auth/login" false None (Some login_body) None.

Definition login_as_list : Endpoint (list (Result LoginResponse)) :=
  mk_Endpoint POST "/auth/login" false None (Some login_body) None.

(** The [/auth/check] answer of the repository's [check_token] test, cut
    down to one role and one permission. *)
Definition check_parse (s : string) : option json :=
  if String.eqb s "/auth/check" then
    Some (JObject [("result", JString "ok"); ("isAuthenticated", JBool true);
                   ("roles", JArray (map JString ["ROLE_MEMBER"]));
                   ("permissions", JArray (map JString ["manga.view"]))])
  else None.

(** A page mixing a successful and a failed element, its keys in another
    order than the struct's and with a key [Results] does not have. *)
Definition ok_tokens_envelope : json :=
  JObject [("result", JString "ok"); ("session", JString "sessiontoken");
           ("refresh", JString "refreshtoken")].

Definition empty_error_envelope : json :=
  JObject [("result", JString "error"); ("errors", JArray [])].

Definition mixed_page_entries : list (string * json) :=
  [("total", JInt 2); ("results", JArray [ok_tokens_envelope; empty_error_envelope]);
   ("next", JNull); ("limit", JInt 10); ("offset", JInt 0)].

(** The same page whose successful element lacks its [refresh] token. *)
Definition broken_ok_envelope : json :=
  JObject [("result", JString "ok"); ("session", JString "sessiontoken")].

Definition broken_page_entries : list (string * json) :=
  [("results", JArray [broken_ok_envelope; empty_error_envelope]);
   ("limit", JInt 10); ("offset", JInt 0); ("total", JInt 2)].

(** A server that answers every request with [pong]. *)
Definition pong_net (req : Request) : result Response ReqwestError :=
  Ok (mk_Response 200 "pong").

(** The [/auth/check] answer with its keys in another order and a key
    [CheckTokenResponse] does not have. *)
Definition check_parse_reordered (s : string) : option json :=
  if String.eqb s "/auth/check" then
    Some (JObject [("permissions", JArray (map JString ["manga.view"; "user.list"]));
                   ("isAuthenticated", JBool false); ("result", JString "ok");
                   ("extra", JNull); ("roles", JArray [])])
  else None.

(** A server body serde_json reads as the positional envelope [["ok"]],
    given to the logout request. *)
Definition positional_logout_parse (s : string) : option json :=
  if String.eqb s "/auth/logout" then Some (JArray [JString "ok"]) else None.

(** The error id of the repository's tests. *)
Definition sample_error_id : string := "5e50fc7b-e185-45b1-a692-58e8091b22d2".

(** The request [send_request] builds for [endpoint] once its path has
    been joined onto the base URL as [u], before the bearer header. *)
Definition endpoint_request {R} (endpoint : Endpoint R) (u : Url) : Request :=
  let u := match ep_query endpoint with Some q => query_qs u q | None => u end in
  let req := request (ep_method endpoint) u in
  let req := match ep_body endpoint with Some b => with_json req b | None => req end in
  match ep_multipart endpoint with Some f => with_multipart req f | None => req end.

(** What [send_request] returns once [req] went out and the transport
    answered [answer]. *)
Definition decode_answer (parse_json : string -> option json) {R} `{FromResponse R}
    (answer : result Response ReqwestError) : Result R :=
  match answer with
  | Err e => Err (Http e)
  | Ok res =>
      match parse_json (res_text res) with
      | None => Err (Http (Decode None))
      | Some j =>
          match @deserialize (FR_Response R) FR_deserialize j with
          | Ok v => Ok (from_response v)
          | Err e => Err (Http (Decode (Some e)))
          end
      end
  end.

(** [w] after sending [req]. *)
Definition after_send (w : World) (req : Request) : World :=
  mk_World (client w) (net w) (sent w ++ [req])%list.

(** ** Proof support *)

(** Membership in a concrete list of entries. *)
Ltac in_list := simpl; repeat (first [left; reflexivity | right]).

(** A concrete integer within the [i32] range. *)
Ltac i32_range := unfold i32_min, i32_max; lia.

Ltac st_unfold :=
  unfold st_bind, st_ret, st_lift, st_fail, get_client, http_send, set_tokens,
    response_json in *.

Definition count_key (k : string) (es : list (string * json)) : nat :=
  List.length (filter (fun e => String.eqb (fst e) k) es).

Definition remove_key (k : string) (es : list (string * json)) : list (string * json) :=
  filter (fun e => negb (String.eqb (fst e) k)) es.

Lemma count_key_cons k k' v es :
  count_key k ((k', v) :: es) = ((if String.eqb k' k then 1 else 0) + count_key k es)%nat.
Proof. unfold count_key; simpl; destruct (String.eqb k' k); reflexivity. Qed.

Lemma count_key_zero_not_in k v es : count_key k es = 0%nat -> ~ In (k, v) es.
Proof.
  induction es as [|[k' v'] es IH]; simpl; [tauto|].
  rewrite count_key_cons. intros Hc [Heq|Hin].
  - inversion Heq; subst. rewrite String.eqb_refl in Hc. discriminate.
  - destruct (String.eqb k' k); [discriminate|]. exact (IH Hc Hin).
Qed.

Lemma remove_key_absent k es : count_key k es = 0%nat -> remove_key k es = es.
Proof.
  induction es as [|[k' v'] es IH]; simpl; [reflexivity|].
  rewrite count_key_cons. unfold remove_key; simpl.
  destruct (String.eqb k' k); simpl; [discriminate|].
  intros Hc. f_equal. exact (IH Hc).
Qed.

(** With the tag already read and no further [result] entry, the content
    is every other entry, in order. *)
Lemma tagged_visit_map_tagged es t rest :
  count_key tag_name es = 0%nat ->
  tagged_visit_map es (Some t) rest = Ok (t, JObject (rev rest ++ es)%list).
Proof.
  revert rest. induction es as [|[k v] es IH]; intros rest Hc; simpl.
  - rewrite app_nil_r. reflexivity.
  - rewrite count_key_cons in Hc.
    destruct (String.eqb k tag_name); [discriminate|].
    rewrite IH by exact Hc. simpl. rewrite <- app_assoc. reflexivity.
Qed.

(** Exactly one [result] entry, holding a known tag: the variant is that
    tag and the content is every other entry, in order. *)
Lemma tagged_visit_map_one es v t rest :
  count_key tag_name es = 1%nat -> In (tag_name, v) es -> de_tag v = Ok t ->
  tagged_visit_map es None rest = Ok (t, JObject (rev rest ++ remove_key tag_name es)%list).
Proof.
  revert rest. induction es as [|[k v'] es IH]; intros rest Hc Hin Ht; simpl in *.
  - contradiction.
  - rewrite count_key_cons in Hc. unfold remove_key; simpl.
    destruct (String.eqb k tag_name) eqn:Hk; simpl.
    + apply String.eqb_eq in Hk; subst k.
      assert (Hc0 : count_key tag_name es = 0%nat) by lia.
      destruct Hin as [Heq|Hin].
      * inversion Heq; subst v'. rewrite Ht. simpl.
        rewrite tagged_visit_map_tagged by exact Hc0.
        fold (remove_key tag_name es). rewrite remove_key_absent by exact Hc0.
        reflexivity.
      * exfalso. exact (count_key_zero_not_in _ _ _ Hc0 Hin).
    + destruct Hin as [Heq|Hin].
      * inversion Heq; subst. rewrite String.eqb_refl in Hk. discriminate.
      * rewrite IH by assumption. simpl. rewrite <- app_assoc. reflexivity.
Qed.

(** No [result] entry holding ["ok"] or ["error"]: reading the tag fails. *)
Lemma tagged_visit_map_no_known_tag es rest :
  (forall v, In (tag_name, v) es -> v <> JString "ok" /\ v <> JString "error") ->
  exists e, tagged_visit_map es None rest = Err e.
Proof.
  revert rest. induction es as [|[k v] es IH]; intros rest Hbad; simpl.
  - eexists; reflexivity.
  - destruct (String.eqb k tag_name) eqn:Hk.
    + apply String.eqb_eq in Hk; subst k.
      destruct (Hbad v (or_introl eq_refl)) as [Hok Herr].
      destruct v; simpl; try (eexists; reflexivity).
      destruct (String.eqb s "ok") eqn:E1.
      { apply String.eqb_eq in E1; subst; contradiction. }
      destruct (String.eqb s "error") eqn:E2.
      { apply String.eqb_eq in E2; subst; contradiction. }
      simpl. eexists; reflexivity.
    + apply IH. intros v' Hin. apply Hbad. right. exact Hin.
Qed.

(** ** C1: an auth-required endpoint without stored tokens *)

(** C1 (as stated, refuted): on a client built with [Client::new("mailto:x")]
    and no tokens, sending the auth-required [Logout] endpoint does not
    return [Errors::MissingTokens]: [send_request] joins the path onto the
    base URL first, and that fails with the URL parse error. *)
Lemma C1_counterexample :
  snd (send_request no_json Logout_endpoint
         (world_of (mk_Client mailto_base_url None) offline_net))
    = Err (ParseUrl RelativeUrlWithCannotBeABaseBase)
  /\ snd (send_request no_json Logout_endpoint
            (world_of (mk_Client mailto_base_url None) offline_net))
     <> Err MissingTokens.
Proof. split; [reflexivity | discriminate]. Qed.

(** C1 (amended): for every endpoint flagged auth-required, [send_request]
    on a client with no stored tokens returns [Errors::MissingTokens] when
    the endpoint path joins onto the base URL, and the URL parse error when
    it does not; either way no request is sent and nothing changes. *)
Theorem C1_auth_required_without_tokens (parse_json : string -> option json)
    R `{FromResponse R} (endpoint : Endpoint R) (w : World) :
  ep_require_auth endpoint = true ->
  get_tokens (client w) = None ->
  send_request parse_json endpoint w =
    (w, match Url_join (base_url (client w)) (ep_path endpoint) with
        | Ok _ => Err MissingTokens
        | Err e => Err (ParseUrl e)
        end).
Proof.
  intros Hauth Htok. destruct w as [[b t] n s]; simpl in *.
  unfold get_tokens in Htok; simpl in Htok; subst t.
  unfold send_request; st_unfold; simpl.
  destruct (Url_join b (ep_path endpoint)); simpl; [|reflexivity].
  rewrite Hauth. reflexivity.
Qed.

Lemma C1_witness :
  ep_require_auth Logout_endpoint = true
  /\ get_tokens (client (world_of (mk_Client default_base_url None) offline_net)) = None
  /\ send_request no_json Logout_endpoint
       (world_of (mk_Client default_base_url None) offline_net)
     = (world_of (mk_Client default_base_url None) offline_net, Err MissingTokens).
Proof.
  split; [reflexivity|]. split; [reflexivity|].
  exact (C1_auth_required_without_tokens no_json _ Logout_endpoint
           (world_of (mk_Client default_base_url None) offline_net) eq_refl eq_refl).
Defined.

(** ** C3: bodies without a known [result] tag *)

(** C3 (as stated, refuted): serde's internally tagged deserializer also
    reads a JSON array positionally, its first element being the tag; the
    body [["ok", {"session": .., "refresh": ..}]] has no [result] field and
    decodes as a successful login response. *)
Lemma C3_counterexample :
  deserialize (A := ApiResult LoginResponse ApiErrors)
    (JArray [JString "ok"; tokens_json sample_tokens])
  = Ok (mk_ApiResult (Ok {| LoginResponse.tokens := sample_tokens |})).
Proof. reflexivity. Qed.

(** C3 (amended): a response body that is an object whose [result] field
    is absent or holds a value other than ["ok"] or ["error"], an array
    whose first element is not ["ok"] or ["error"], or any other JSON value,
    fails to decode as an envelope. *)
Theorem C3_unknown_or_missing_tag_is_error {T E} `{Deserialize T} `{Deserialize E}
    (j : json) :
  match j with
  | JObject es => forall v, In (tag_name, v) es -> v <> JString "ok" /\ v <> JString "error"
  | JArray items => forall v, hd_error items = Some v -> v <> JString "ok" /\ v <> JString "error"
  | _ => True
  end ->
  exists e, deserialize (A := ApiResult T E) j = Err e.
Proof.
  intros Hj.
  unfold deserialize at 1, Deserialize_ApiResult, ApiResultDef_deserialize, tagged_content.
  destruct j as [| | | | |items|es]; try (eexists; reflexivity).
  - destruct items as [|v items]; [eexists; reflexivity|].
    destruct (Hj v eq_refl) as [Hok Herr].
    destruct v; cbn -[String.eqb]; try (eexists; reflexivity).
    destruct (String.eqb s "ok") eqn:E1.
    { apply String.eqb_eq in E1; subst; contradiction. }
    destruct (String.eqb s "error") eqn:E2.
    { apply String.eqb_eq in E2; subst; contradiction. }
    eexists; reflexivity.
  - destruct (tagged_visit_map_no_known_tag es [] Hj) as [e He].
    rewrite He. eexists; reflexivity.
Qed.

Lemma C3_witness :
  (forall v, In (tag_name, v) [("result", JString "okay"); ("data", JNull)] ->
     v <> JString "ok" /\ v <> JString "error")
  /\ exists e, deserialize (A := ApiResult NoData ApiErrors)
                 (JObject [("result", JString "okay"); ("data", JNull)]) = Err e.
Proof.
  assert (Hb : forall v, In (tag_name, v) [("result", JString "okay"); ("data", JNull)] ->
            v <> JString "ok" /\ v <> JString "error").
  { intros v [Heq|[Heq|[]]]; inversion Heq; subst; split; discriminate. }
  split; [exact Hb|].
  exact (C3_unknown_or_missing_tag_is_error (T := NoData) (E := ApiErrors)
           (JObject [("result", JString "okay"); ("data", JNull)]) Hb).
Defined.

(** ** C2: a page mixing successful and failed elements *)

Lemma de_list_items_all_ok {A} (d : json -> result A DeError) (items : list json) :
  Forall (fun x => is_ok (d x) = true) items ->
  exists l, de_list_items d items = Ok l /\ Forall2 (fun x a => d x = Ok a) items l.
Proof.
  induction 1 as [|x xs Hx _ IH]; simpl.
  - exists []. split; [reflexivity | constructor].
  - destruct (d x) as [a|e] eqn:Hd; [|discriminate].
    destruct IH as [l [Hl Hf]]. exists (a :: l). simpl. rewrite Hl.
    split; [reflexivity | constructor; assumption].
Qed.

Lemma Forall2_nth_error_l {A B} (P : A -> B -> Prop) xs ys n x :
  Forall2 P xs ys -> nth_error xs n = Some x -> exists y, nth_error ys n = Some y /\ P x y.
Proof.
  intros HF. revert n. induction HF as [|x' y' xs' ys' Hxy _ IH]; intros n Hn.
  - destruct n; discriminate.
  - destruct n as [|n]; simpl in *.
    + inversion Hn; subst. exists y'. split; [reflexivity | exact Hxy].
    + exact (IH n Hn).
Qed.

Lemma Forall2_map_r {A B C} (P : A -> C -> Prop) (f : B -> C) xs ys
    (Q : A -> B -> Prop) :
  (forall x y, Q x y -> P x (f y)) -> Forall2 Q xs ys -> Forall2 P xs (map f ys).
Proof. intros Hq HF. induction HF; simpl; constructor; auto. Qed.

(** A decoded envelope carries the variant of its tag. *)
Lemma ApiResult_tag_variant {T E} `{Deserialize T} `{Deserialize E} x tg c a :
  tagged_content x = Ok (tg, c) ->
  deserialize (A := ApiResult T E) x = Ok a ->
  match tg with
  | TagOk => exists v, into_result a = Ok v /\ deserialize c = Ok v
  | TagError => exists e, into_result a = Err e /\ deserialize c = Ok e
  end.
Proof.
  intros Htc Hd.
  unfold deserialize at 1, Deserialize_ApiResult, ApiResultDef_deserialize in Hd.
  rewrite Htc in Hd. simpl in Hd.
  destruct tg.
  - destruct (deserialize c) as [v|e] eqn:Hc; simpl in Hd; [|discriminate].
    inversion Hd; subst. exists v. split; reflexivity.
  - destruct (deserialize c) as [e|e] eqn:Hc; simpl in Hd; [|discriminate].
    inversion Hd; subst. exists e. split; reflexivity.
Qed.

Lemma de_i32_in_range z : i32_min <= z <= i32_max -> de_i32 (JInt z) = Ok z.
Proof.
  intros [H1 H2]. unfold de_i32.
  rewrite (proj2 (Z.leb_le _ _) H1), (proj2 (Z.leb_le _ _) H2). reflexivity.
Qed.

(** A derived struct reading a map in which each field name occurs at most
    once: the fields are gathered, each with the value of its entry. *)
Lemma collect_fields_unique names es acc :
  (forall k, existsb (String.eqb k) names = true ->
     (count_key k es <= 1)%nat /\ (count_key k es = 1%nat -> slot acc k = None)) ->
  exists s, collect_fields names es acc = Ok s
    /\ forall k, existsb (String.eqb k) names = true ->
         (forall v, In (k, v) es -> slot s k = Some v)
         /\ (count_key k es = 0%nat -> slot s k = slot acc k).
Proof.
  revert acc. induction es as [|[k0 v0] es IH]; intros acc Hu; simpl.
  - exists acc. split; [reflexivity|]. intros k _. split; [intros v []|reflexivity].
  - destruct (existsb (String.eqb k0) names) eqn:Hk0.
    + destruct (Hu k0 Hk0) as [Hc Hnone]. rewrite count_key_cons, String.eqb_refl in Hc, Hnone.
      rewrite (Hnone ltac:(lia)).
      destruct (IH ((k0, v0) :: acc)) as [s [Hs Hsl]].
      { intros k Hk. destruct (Hu k Hk) as [Hc' Hn']. rewrite count_key_cons in Hc', Hn'.
        split; [destruct (String.eqb k0 k); lia|].
        intros H1. destruct (String.eqb k0 k) eqn:E; [lia|]. simpl. idtac.
        rewrite E. apply Hn'. lia. }
      exists s. split; [exact Hs|]. intros k Hk. destruct (Hsl k Hk) as [Hin H0].
      split.
      * intros v [Heq|Hv]; [|exact (Hin v Hv)].
        inversion Heq; subst. rewrite H0 by lia. simpl. rewrite String.eqb_refl. reflexivity.
      * rewrite count_key_cons. intros Hz. destruct (String.eqb k0 k) eqn:E; [discriminate|].
        rewrite H0 by exact Hz. simpl. rewrite E. reflexivity.
    + destruct (IH acc) as [s [Hs Hsl]].
      { intros k Hk. destruct (Hu k Hk) as [Hc' Hn']. rewrite count_key_cons in Hc', Hn'.
        destruct (String.eqb k0 k) eqn:E.
        - apply String.eqb_eq in E; subst. rewrite Hk in Hk0. discriminate.
        - split; [lia|]. exact Hn'. }
      exists s. split; [exact Hs|]. intros k Hk. destruct (Hsl k Hk) as [Hin H0].
      split.
      * intros v [Heq|Hv]; [|exact (Hin v Hv)].
        inversion Heq; subst. rewrite Hk in Hk0. discriminate.
      * rewrite count_key_cons. intros Hz. destruct (String.eqb k0 k); [discriminate|].
        exact (H0 Hz).
Qed.

Lemma de_list_items_some_fail {A} (d : json -> result A DeError) items x :
  In x items -> is_ok (d x) = false -> exists e, de_list_items d items = Err e.
Proof.
  induction items as [|y ys IH]; simpl; [intros []|].
  intros [->|Hin] Hx.
  - destruct (d x) as [a|e]; [discriminate|]. exists e. reflexivity.
  - destruct (d y) as [a|e]; simpl; [|exists e; reflexivity].
    destruct (IH Hin Hx) as [e He]. rewrite He. exists e. reflexivity.
Qed.

(** The slots of a page whose four fields each occur once. *)
Lemma page_slots (es : list (string * json)) (rj lj oj tj : json) :
  count_key "results" es = 1%nat -> count_key "limit" es = 1%nat ->
  count_key "offset" es = 1%nat -> count_key "total" es = 1%nat ->
  In ("results", rj) es -> In ("limit", lj) es -> In ("offset", oj) es -> In ("total", tj) es ->
  exists s, collect_fields (map fst Results_fields) es [] = Ok s
    /\ slot s "results" = Some rj /\ slot s "limit" = Some lj
    /\ slot s "offset" = Some oj /\ slot s "total" = Some tj.
Proof.
  intros C1 C2 C3 C4 I1 I2 I3 I4.
  destruct (collect_fields_unique (map fst Results_fields) es []) as [s [Hs Hsl]].
  { intros k Hk. simpl in Hk.
    destruct (String.eqb k "results") eqn:E1;
      [apply String.eqb_eq in E1; subst; rewrite C1; split; [lia|reflexivity]|].
    destruct (String.eqb k "limit") eqn:E2;
      [apply String.eqb_eq in E2; subst; rewrite C2; split; [lia|reflexivity]|].
    destruct (String.eqb k "offset") eqn:E3;
      [apply String.eqb_eq in E3; subst; rewrite C3; split; [lia|reflexivity]|].
    destruct (String.eqb k "total") eqn:E4;
      [apply String.eqb_eq in E4; subst; rewrite C4; split; [lia|reflexivity]|].
    discriminate. }
  exists s. split; [exact Hs|].
  split; [exact (proj1 (Hsl "results" eq_refl) _ I1)|].
  split; [exact (proj1 (Hsl "limit" eq_refl) _ I2)|].
  split; [exact (proj1 (Hsl "offset" eq_refl) _ I3)|].
  exact (proj1 (Hsl "total" eq_refl) _ I4).
Qed.

(** The same, starting from no field. *)
Lemma unique_fields_slots names es :
  (forall k, existsb (String.eqb k) names = true -> (count_key k es <= 1)%nat) ->
  exists s, collect_fields names es [] = Ok s
    /\ forall k, existsb (String.eqb k) names = true ->
         (forall v, In (k, v) es -> slot s k = Some v)
         /\ (count_key k es = 0%nat -> slot s k = None).
Proof.
  intros Hu. destruct (collect_fields_unique names es []) as [s [Hs Hsl]].
  { intros k Hk. split; [exact (Hu k Hk) | reflexivity]. }
  exists s. split; [exact Hs|]. exact Hsl.
Qed.

(** Each field name of a struct occurs at most once among the entries. *)
Ltac fields_at_most_once :=
  let k := fresh "k" in let Hk := fresh "Hk" in
  intros k Hk; simpl in Hk;
  repeat match type of Hk with
         | context [String.eqb k ?n] =>
             let E := fresh "E" in
             destruct (String.eqb k n) eqn:E;
             [apply String.eqb_eq in E; subst k; lia | simpl in Hk]
         end;
  discriminate.

(** A field met once is gathered with the value of its entry. *)
Lemma collect_fields_slot_keep names es acc s k :
  collect_fields names es acc = Ok s -> count_key k es = 0%nat -> slot s k = slot acc k.
Proof.
  revert acc. induction es as [|[k' v] es IH]; intros acc Hc Hk; simpl in Hc.
  - inversion Hc; subst. reflexivity.
  - rewrite count_key_cons in Hk. destruct (String.eqb k' k) eqn:Hkk; [discriminate|].
    destruct (existsb (String.eqb k') names).
    + destruct (slot acc k'); [discriminate|].
      rewrite (IH _ Hc Hk). simpl. rewrite Hkk. reflexivity.
    + exact (IH _ Hc Hk).
Qed.

Lemma collect_fields_ok_slot names es acc s k v :
  collect_fields names es acc = Ok s -> existsb (String.eqb k) names = true ->
  count_key k es = 1%nat -> In (k, v) es -> slot s k = Some v.
Proof.
  revert acc. induction es as [|[k' v'] es IH]; intros acc Hc Hn Hk Hin; simpl in *.
  - contradiction.
  - rewrite count_key_cons in Hk. destruct (String.eqb k' k) eqn:Hkk.
    + apply String.eqb_eq in Hkk; subst k'. rewrite Hn in Hc.
      destruct (slot acc k); [discriminate|].
      assert (H0 : count_key k es = 0%nat) by lia.
      destruct Hin as [Heq|Hin]; [|exfalso; exact (count_key_zero_not_in _ _ _ H0 Hin)].
      inversion Heq; subst v'.
      rewrite (collect_fields_slot_keep _ _ _ _ _ Hc H0). simpl. rewrite String.eqb_refl.
      reflexivity.
    + destruct Hin as [Heq|Hin]; [inversion Heq; subst; rewrite String.eqb_refl in Hkk; discriminate|].
      destruct (existsb (String.eqb k') names).
      * destruct (slot acc k'); [discriminate|]. exact (IH _ Hc Hn Hk Hin).
      * exact (IH _ Hc Hn Hk Hin).
Qed.

(** C2 (as stated, refuted): elements are not decoded independently of
    one another. In a page whose first element is tagged ["ok"] and whose
    sibling is tagged ["error"], the ["ok"] element's payload lacks the
    [refresh] field of [AuthTokens]; the whole page then fails to decode,
    and the ["error"] sibling is lost with it. *)
Lemma C2_counterexample :
  tagged_content broken_ok_envelope = Ok (TagOk, JObject [("session", JString "sessiontoken")])
  /\ tagged_content empty_error_envelope = Ok (TagError, JObject [("errors", JArray [])])
  /\ from_json (Results (Result AuthTokens)) (JObject broken_page_entries)
     = Err (MissingField "refresh").
Proof. split; [reflexivity|]. split; [reflexivity|]. vm_compute. reflexivity. Qed.

(** C2 (amended): a page given as a JSON object in which [results],
    [limit], [offset] and [total] each occur once, in any order and among
    any other keys, whose elements include one tagged ["ok"] and a sibling
    tagged ["error"]. When every element is a well-formed envelope, the
    page decodes to a [Results] whose elements are the elements decoded one
    by one: the ["ok"] one a success, the ["error"] one an
    [Err(HttpWithBody)]; its [limit], [offset] and [total] are those of the
    page. When any element fails to decode as an envelope, the whole page
    fails to decode. *)
Theorem C2_page_elements_decoded_independently {T} `{Deserialize T}
    (es : list (string * json)) (items : list json) (lim off tot : Z) (i k : nat)
    (x_ok x_err c_ok c_err : json) :
  count_key "results" es = 1%nat -> count_key "limit" es = 1%nat ->
  count_key "offset" es = 1%nat -> count_key "total" es = 1%nat ->
  In ("results", JArray items) es -> In ("limit", JInt lim) es ->
  In ("offset", JInt off) es -> In ("total", JInt tot) es ->
  i32_min <= lim <= i32_max -> i32_min <= off <= i32_max -> i32_min <= tot <= i32_max ->
  nth_error items i = Some x_ok -> tagged_content x_ok = Ok (TagOk, c_ok) ->
  nth_error items k = Some x_err -> tagged_content x_err = Ok (TagError, c_err) ->
  (Forall (fun x => is_ok (deserialize (A := ApiResult T ApiErrors) x) = true) items ->
   exists page,
     from_json (Results (Result T)) (JObject es) = Ok page
     /\ limit page = lim /\ offset page = off /\ total page = tot
     /\ Forall2 (fun x r => exists a, deserialize (A := ApiResult T ApiErrors) x = Ok a
                                      /\ r = map_err HttpWithBody (into_result a))
                items (results page)
     /\ (exists v, nth_error (results page) i = Some (Ok v))
     /\ (exists e, nth_error (results page) k = Some (Err (HttpWithBody e))))
  /\ (forall x, In x items -> is_ok (deserialize (A := ApiResult T ApiErrors) x) = false ->
      exists e, from_json (Results (Result T)) (JObject es) = Err e).
Proof.
  intros C1 C2 C3 C4 I1 I2 I3 I4 Hl Ho Ht Hi Hti Hk Htk.
  destruct (page_slots es _ _ _ _ C1 C2 C3 C4 I1 I2 I3 I4)
    as [s [Hs [S1 [S2 [S3 S4]]]]].
  assert (Hdec : from_json (Results (Result T)) (JObject es)
    = rs <-? de_list_items (deserialize (A := ApiResult T ApiErrors)) items ;;
      Ok (mk_Results (map (fun r => map_err HttpWithBody (into_result r)) rs) lim off tot)).
  { unfold from_json. cbn [FR_deserialize FR_Response FromResponse_Results].
    unfold deserialize at 1, Deserialize_Results, fields_of. rewrite Hs.
    simpl result_bind. unfold required. rewrite S1, S2, S3, S4.
    unfold de_vec.
    rewrite (de_i32_in_range _ Hl), (de_i32_in_range _ Ho), (de_i32_in_range _ Ht).
    destruct (de_list_items _ items); reflexivity. }
  split.
  - intros Hall.
    destruct (de_list_items_all_ok _ _ Hall) as [l [Hdl Hf]].
    set (f := fun r : ApiResult T ApiErrors => map_err HttpWithBody (into_result r)).
    exists (mk_Results (map f l) lim off tot).
    assert (HF : Forall2 (fun x r => exists a, deserialize (A := ApiResult T ApiErrors) x = Ok a
                                              /\ r = f a) items (map f l)).
    { apply (Forall2_map_r _ f items l (fun x a => deserialize x = Ok a)); [|exact Hf].
      intros x a Hxa. exists a. split; [exact Hxa | reflexivity]. }
    split; [rewrite Hdec, Hdl; reflexivity|].
    split; [reflexivity|]. split; [reflexivity|]. split; [reflexivity|].
    split; [exact HF|]. simpl. split.
    + destruct (Forall2_nth_error_l _ _ _ _ _ HF Hi) as [r [Hr [a [Ha Hra]]]].
      pose proof (ApiResult_tag_variant _ _ _ _ Hti Ha) as [v [Hv _]].
      exists v. rewrite Hr, Hra. unfold f. rewrite Hv. reflexivity.
    + destruct (Forall2_nth_error_l _ _ _ _ _ HF Hk) as [r [Hr [a [Ha Hra]]]].
      pose proof (ApiResult_tag_variant _ _ _ _ Htk Ha) as [e [He _]].
      exists e. rewrite Hr, Hra. unfold f. rewrite He. reflexivity.
  - intros x Hx Hbad.
    destruct (de_list_items_some_fail _ _ _ Hx Hbad) as [e He].
    exists e. rewrite Hdec, He. reflexivity.
Qed.

Lemma C2_witness :
  (exists page,
     from_json (Results (Result AuthTokens)) (JObject mixed_page_entries) = Ok page
     /\ limit page = 10 /\ offset page = 0 /\ total page = 2
     /\ (exists v, nth_error (results page) 0 = Some (Ok v))
     /\ (exists e, nth_error (results page) 1 = Some (Err (HttpWithBody e))))
  /\ exists e, from_json (Results (Result AuthTokens)) (JObject broken_page_entries) = Err e.
Proof.
  split.
  - destruct (C2_page_elements_decoded_independently (T := AuthTokens) mixed_page_entries
                [ok_tokens_envelope; empty_error_envelope] 10 0 2 0 1
                ok_tokens_envelope empty_error_envelope
                (JObject [("session", JString "sessiontoken"); ("refresh", JString "refreshtoken")])
                (JObject [("errors", JArray [])])
                eq_refl eq_refl eq_refl eq_refl
                ltac:(in_list) ltac:(in_list) ltac:(in_list) ltac:(in_list)
                ltac:(i32_range) ltac:(i32_range) ltac:(i32_range)
                eq_refl eq_refl eq_refl eq_refl) as [Hok _].
    destruct Hok as (page & Hp & Hl & Ho & Ht & _ & Hv & He).
    + constructor; [reflexivity|]. constructor; [reflexivity|]. constructor.
    + exists page. repeat split; assumption.
  - destruct (C2_page_elements_decoded_independently (T := AuthTokens) broken_page_entries
                [broken_ok_envelope; empty_error_envelope] 10 0 2 0 1
                broken_ok_envelope empty_error_envelope
                (JObject [("session", JString "sessiontoken")])
                (JObject [("errors", JArray [])])
                eq_refl eq_refl eq_refl eq_refl
                ltac:(in_list) ltac:(in_list) ltac:(in_list) ltac:(in_list)
                ltac:(i32_range) ltac:(i32_range) ltac:(i32_range)
                eq_refl eq_refl eq_refl eq_refl) as [_ Hbad].
    exact (Hbad broken_ok_envelope (or_introl eq_refl) eq_refl).
Defined.

(** ** C8: the error envelope *)

Lemma existsb_single k k' : existsb (String.eqb k') [k] = String.eqb k' k.
Proof. simpl. apply orb_false_r. Qed.

Lemma collect_fields_absent k es acc :
  count_key k es = 0%nat -> collect_fields [k] es acc = Ok acc.
Proof.
  revert acc. induction es as [|[k' v'] es IH]; intros acc Hc; simpl; [reflexivity|].
  rewrite count_key_cons in Hc. rewrite orb_false_r.
  destruct (String.eqb k' k); [discriminate|]. exact (IH acc Hc).
Qed.

Lemma collect_fields_once k v es acc :
  count_key k es = 1%nat -> In (k, v) es -> slot acc k = None ->
  collect_fields [k] es acc = Ok ((k, v) :: acc).
Proof.
  revert acc. induction es as [|[k' v'] es IH]; intros acc Hc Hin Hs; simpl in *.
  - contradiction.
  - rewrite count_key_cons in Hc. rewrite orb_false_r.
    destruct (String.eqb k' k) eqn:Hk.
    + apply String.eqb_eq in Hk; subst k'. rewrite Hs.
      assert (Hc0 : count_key k es = 0%nat) by lia.
      destruct Hin as [Heq|Hin].
      * inversion Heq; subst v'. apply collect_fields_absent. exact Hc0.
      * exfalso. exact (count_key_zero_not_in _ _ _ Hc0 Hin).
    + destruct Hin as [Heq|Hin].
      * inversion Heq; subst. rewrite String.eqb_refl in Hk. discriminate.
      * exact (IH acc Hc Hin Hs).
Qed.

Lemma count_key_remove_other k k' es :
  String.eqb k k' = false -> count_key k (remove_key k' es) = count_key k es.
Proof.
  intros Hne. induction es as [|[k1 v1] es IH]; simpl; [reflexivity|].
  unfold remove_key in *; simpl. rewrite count_key_cons.
  destruct (String.eqb k1 k') eqn:H1; simpl.
  - destruct (String.eqb k1 k) eqn:H2.
    + apply String.eqb_eq in H1, H2. subst. rewrite String.eqb_refl in Hne. discriminate.
    + simpl. exact IH.
  - rewrite count_key_cons. rewrite IH. reflexivity.
Qed.

Lemma In_remove_other k k' v es :
  String.eqb k k' = false -> In (k, v) es -> In (k, v) (remove_key k' es).
Proof.
  intros Hne Hin. unfold remove_key. apply filter_In. split; [exact Hin|].
  simpl. rewrite Hne. reflexivity.
Qed.

Lemma de_list_items_Forall2 {A} (d : json -> result A DeError) items recs :
  Forall2 (fun x r => d x = Ok r) items recs -> de_list_items d items = Ok recs.
Proof. induction 1 as [|x r xs rs Hx _ IH]; simpl; [reflexivity|]. rewrite Hx, IH. reflexivity. Qed.

(** The envelope tagged ["error"] is read from the entries other than
    [result]. *)
Lemma error_envelope_content {T} `{Deserialize T} (es : list (string * json)) :
  count_key tag_name es = 1%nat -> In (tag_name, JString "error") es ->
  deserialize (A := ApiResult T ApiErrors) (JObject es)
  = e <-? deserialize (A := ApiErrors) (JObject (remove_key tag_name es)) ;;
    Ok (mk_ApiResult (Err e)).
Proof.
  intros Hc Hin.
  unfold deserialize at 1, Deserialize_ApiResult, ApiResultDef_deserialize, tagged_content.
  rewrite (tagged_visit_map_one es (JString "error") TagError [] Hc Hin eq_refl).
  simpl. destruct (deserialize (JObject (remove_key tag_name es))); reflexivity.
Qed.

(** C8: an envelope tagged ["error"] decodes as an API error carrying
    exactly the records of its [errors] field, each read as an [ApiError]
    (id, status, optional title and detail); with no [errors] field it
    carries no record. *)
Theorem C8_error_envelope_records {T} `{Deserialize T} (es : list (string * json)) :
  count_key tag_name es = 1%nat -> In (tag_name, JString "error") es ->
  (count_key "errors" es = 0%nat ->
     deserialize (A := ApiResult T ApiErrors) (JObject es)
     = Ok (mk_ApiResult (Err {| errors := [] |})))
  /\ (forall items recs,
        count_key "errors" es = 1%nat -> In ("errors", JArray items) es ->
        Forall2 (fun x r => deserialize (A := ApiError) x = Ok r) items recs ->
        deserialize (A := ApiResult T ApiErrors) (JObject es)
        = Ok (mk_ApiResult (Err {| errors := recs |}))).
Proof.
  intros Hc Hin. rewrite (error_envelope_content es Hc Hin).
  assert (Hne : String.eqb "errors" tag_name = false) by reflexivity.
  split.
  - intros He. unfold deserialize at 1, Deserialize_ApiErrors, fields_of. simpl map.
    rewrite collect_fields_absent by (rewrite count_key_remove_other by exact Hne; exact He).
    reflexivity.
  - intros items recs He Hi Hr. unfold deserialize at 1, Deserialize_ApiErrors, fields_of.
    simpl map.
    rewrite (collect_fields_once "errors" (JArray items))
      by first [rewrite count_key_remove_other by exact Hne; exact He
               | exact (In_remove_other _ _ _ _ Hne Hi) | reflexivity].
    simpl. unfold defaulted, de_vec; simpl.
    rewrite (de_list_items_Forall2 _ _ _ Hr). reflexivity.
Qed.

Lemma C8_witness :
  deserialize (A := ApiResult NoData ApiErrors) (JObject spec_error_entries)
  = Ok (mk_ApiResult (Err {| errors :=
      [{| id := match Uuid_parse_str "5e50fc7b-e185-45b1-a692-58e8091b22d2" with
                | Some u => u | None => mk_uuid 0 end;
          status := 503;
          title := Some "The service is unavailable";
          detail := Some "Servers are burning" |}] |})).
Proof.
  apply (proj2 (C8_error_envelope_records (T := NoData) spec_error_entries eq_refl
                  (or_introl eq_refl))
           _ _ eq_refl (or_intror (or_introl eq_refl))).
  constructor; [reflexivity | constructor].
Defined.

(** ** What [send_request] does to the world *)

Ltac case_match :=
  match goal with
  | |- context [match ?x with _ => _ end] => destruct x eqn:?
  end.

(** [send_request] takes [&self]: it leaves the client as it is and sends at
    most one request, which carries the stored session token as its bearer
    credential when tokens are stored, and no bearer credential otherwise. *)
Lemma send_request_effect (parse_json : string -> option json)
    R `{FromResponse R} (endpoint : Endpoint R) (w : World) :
  client (fst (send_request parse_json endpoint w)) = client w
  /\ net (fst (send_request parse_json endpoint w)) = net w
  /\ exists reqs, sent (fst (send_request parse_json endpoint w)) = (sent w ++ reqs)%list
       /\ (List.length reqs <= 1)%nat
       /\ Forall (fun req => req_bearer req = option_map session (get_tokens (client w))) reqs.
Proof.
  destruct w as [[b t] n s]. unfold send_request, get_tokens; st_unfold; simpl.
  destruct (Url_join b (ep_path endpoint)) as [u|e]; simpl.
  2:{ split; [reflexivity|]. split; [reflexivity|]. exists []. rewrite app_nil_r.
      split; [reflexivity|]. split; [simpl; lia | constructor]. }
  destruct t as [tok|]; simpl.
  - repeat case_match; simpl;
      (split; [reflexivity|]; split; [reflexivity|]; eexists; split; [reflexivity|];
       split; [simpl; lia | repeat constructor]).
  - destruct (ep_require_auth endpoint); simpl.
    + split; [reflexivity|]. split; [reflexivity|]. exists []. rewrite app_nil_r.
      split; [reflexivity|]. split; [simpl; lia | constructor].
    + repeat case_match; simpl;
        (split; [reflexivity|]; split; [reflexivity|]; eexists; split; [reflexivity|];
         split; [simpl; lia | repeat constructor]).
Qed.

(** A successful [send_request] sent exactly one request and read the
    answer's body as the endpoint's wire type. *)
Lemma send_request_ok (parse_json : string -> option json)
    R `{FR : FromResponse R} (endpoint : Endpoint R) (w w' : World) (r : R) :
  send_request parse_json endpoint w = (w', Ok r) ->
  exists req resp j v,
    sent w' = (sent w ++ [req])%list /\ net w req = Ok resp
    /\ parse_json (res_text resp) = Some j
    /\ @deserialize (FR_Response R) FR_deserialize j = Ok v
    /\ r = from_response v /\ client w' = client w /\ net w' = net w.
Proof.
  destruct w as [[b t] n s]. unfold send_request, get_tokens; st_unfold; simpl.
  destruct (Url_join b (ep_path endpoint)) as [u|e]; simpl; [|discriminate].
  destruct t as [tok|]; simpl;
    [|destruct (ep_require_auth endpoint); simpl; [discriminate|]];
    repeat (match goal with
            | |- context [n ?q] => destruct (n q) eqn:?
            | |- context [parse_json ?x] => destruct (parse_json x) eqn:?
            | |- context [@deserialize ?A ?i ?j] => destruct (@deserialize A i j) eqn:?
            end; simpl);
    intros Hw; inversion Hw; subst;
    do 4 eexists; (split; [reflexivity|]); (split; [eassumption|]);
    (split; [eassumption|]); (split; [eassumption|]); auto.
Qed.

Lemma send_flatten_cases (parse_json : string -> option json)
    T `{Deserialize T} (endpoint : Endpoint (Result T)) (w : World) :
  send_flatten parse_json endpoint w =
    (fst (send_request parse_json endpoint w),
     match snd (send_request parse_json endpoint w) with
     | Ok (Ok v) => Ok v
     | Ok (Err e) => Err e
     | Err e => Err e
     end).
Proof.
  unfold send_flatten, st_bind, st_lift.
  destruct (send_request parse_json endpoint w) as [w1 [[v|e]|e]]; reflexivity.
Qed.

Lemma login_cases (parse_json : string -> option json) (u p : string) (w : World) :
  login parse_json u p w =
    match snd (send_flatten parse_json
                 (Login_endpoint {| username := u; password := p |}) w) with
    | Ok lr => (with_tokens (fst (send_flatten parse_json
                   (Login_endpoint {| username := u; password := p |}) w))
                  (Some (LoginResponse.tokens lr)),
                Ok (LoginResponse.tokens lr))
    | Err e => (fst (send_flatten parse_json
                  (Login_endpoint {| username := u; password := p |}) w), Err e)
    end.
Proof.
  unfold login. unfold st_bind at 1.
  destruct (send_flatten parse_json _ w) as [w1 [lr|e]]; reflexivity.
Qed.

Lemma logout_cases (parse_json : string -> option json) (w : World) :
  logout parse_json w =
    match snd (send_request parse_json Logout_endpoint w) with
    | Ok (Ok _) => (with_tokens (fst (send_request parse_json Logout_endpoint w)) None, Ok tt)
    | Ok (Err e) | Err e => (fst (send_request parse_json Logout_endpoint w), Err e)
    end.
Proof.
  unfold logout, send_discard, st_bind, st_lift, st_ret, set_tokens.
  destruct (send_request parse_json Logout_endpoint w) as [w1 [[v|e]|e]]; reflexivity.
Qed.

Lemma refresh_tokens_cases (parse_json : string -> option json) (w : World) :
  refresh_tokens parse_json w =
    match get_tokens (client w) with
    | None => (w, Err MissingTokens)
    | Some t =>
        let ep := RefreshToken_endpoint {| refresh_token := refresh t |} in
        match snd (send_flatten parse_json ep w) with
        | Ok res => (with_tokens (fst (send_flatten parse_json ep w))
                       (Some (RefreshTokenResponse.tokens res)), Ok res)
        | Err e => (fst (send_flatten parse_json ep w), Err e)
        end
    end.
Proof.
  unfold refresh_tokens. unfold st_bind at 1. unfold get_client at 1.
  unfold st_bind at 1. unfold st_lift at 1.
  destruct (get_tokens (client w)) as [t|]; [|reflexivity].
  unfold st_bind at 1.
  destruct (send_flatten parse_json _ w) as [w1 [res|e]]; reflexivity.
Qed.

(** ** C4: a successful refresh replaces the whole pair *)

(** C4: after a successful [refresh_tokens] the stored pair is exactly the
    pair of the returned response, both tokens together; that response is
    the server's answer to the one request sent, decoded. *)
Theorem C4_refresh_replaces_both_tokens (parse_json : string -> option json)
    (w w' : World) (res : RefreshTokenResponse) :
  refresh_tokens parse_json w = (w', Ok res) ->
  get_tokens (client w') = Some (RefreshTokenResponse.tokens res)
  /\ exists req resp j,
       sent w' = (sent w ++ [req])%list /\ net w req = Ok resp
       /\ parse_json (res_text resp) = Some j
       /\ deserialize (A := ApiResult RefreshTokenResponse ApiErrors) j
          = Ok (mk_ApiResult (Ok res)).
Proof.
  rewrite refresh_tokens_cases. destruct (get_tokens (client w)) as [t|]; [|discriminate].
  cbv zeta. rewrite send_flatten_cases.
  destruct (send_request parse_json _ w) as [w1 r] eqn:Hs. simpl.
  destruct r as [[v|e]|e]; intros H; inversion H; subst; clear H.
  split; [reflexivity|].
  destruct (send_request_ok _ _ _ _ _ _ Hs) as (req & resp & j & a & Hsent & Hnet & Hp & Hd & Hr & _).
  exists req, resp, j. simpl. split; [exact Hsent|]. split; [exact Hnet|].
  split; [exact Hp|]. destruct a as [[x|x]]; simpl in Hr; inversion Hr; subst.
  exact Hd.
Qed.

Lemma C4_witness :
  get_tokens (client (fst (refresh_tokens sample_parse (logged_in_world echo_net))))
    = Some sample_tokens2
  /\ exists req resp j,
       sent (fst (refresh_tokens sample_parse (logged_in_world echo_net)))
         = (sent (logged_in_world echo_net) ++ [req])%list
       /\ net (logged_in_world echo_net) req = Ok resp
       /\ sample_parse (res_text resp) = Some j
       /\ deserialize (A := ApiResult RefreshTokenResponse ApiErrors) j
          = Ok (mk_ApiResult (Ok {| RefreshTokenResponse.tokens := sample_tokens2;
                                    RefreshTokenResponse.message := Some "Token refreshed!" |})).
Proof.
  exact (C4_refresh_replaces_both_tokens sample_parse (logged_in_world echo_net)
           (fst (refresh_tokens sample_parse (logged_in_world echo_net)))
           {| RefreshTokenResponse.tokens := sample_tokens2;
              RefreshTokenResponse.message := Some "Token refreshed!" |} eq_refl).
Defined.

(** ** C5 and C6: a failed call keeps the stored tokens *)

Lemma send_request_keeps_client (parse_json : string -> option json)
    R `{FromResponse R} (endpoint : Endpoint R) (w : World) :
  client (fst (send_request parse_json endpoint w)) = client w.
Proof. exact (proj1 (send_request_effect parse_json R endpoint w)). Qed.

(** C5: when [login] or [refresh_tokens] returns an error, the client, and
    so its stored tokens, is what it was before the call. *)
Theorem C5_failed_login_or_refresh_keeps_tokens (parse_json : string -> option json)
    (w : World) :
  (forall u p w' e, login parse_json u p w = (w', Err e) -> client w' = client w)
  /\ (forall w' e, refresh_tokens parse_json w = (w', Err e) -> client w' = client w).
Proof.
  split.
  - intros u p w' e. rewrite login_cases, send_flatten_cases. simpl.
    pose proof (send_request_keeps_client parse_json _
                  (Login_endpoint {| username := u; password := p |}) w) as Hc.
    destruct (send_request parse_json _ w) as [w1 r]. simpl in *.
    destruct r as [[v|e']|e']; intros H; inversion H; subst; exact Hc.
  - intros w' e. rewrite refresh_tokens_cases.
    destruct (get_tokens (client w)) as [t|].
    + cbv zeta. rewrite send_flatten_cases. simpl.
      pose proof (send_request_keeps_client parse_json _
                    (RefreshToken_endpoint {| refresh_token := refresh t |}) w) as Hc.
      destruct (send_request parse_json _ w) as [w1 r]. simpl in *.
      destruct r as [[v|e']|e']; intros H; inversion H; subst; exact Hc.
    + intros H; inversion H; reflexivity.
Qed.

Lemma C5_witness :
  client (fst (login no_json "test" "hunter1" (logged_in_world offline_net)))
    = client (logged_in_world offline_net)
  /\ client (fst (refresh_tokens no_json (logged_in_world offline_net)))
    = client (logged_in_world offline_net).
Proof.
  pose proof (C5_failed_login_or_refresh_keeps_tokens no_json (logged_in_world offline_net))
    as [Hl Hr].
  split.
  - exact (Hl "test" "hunter1" _ (Http (Transport "connection refused")) eq_refl).
  - exact (Hr _ (Http (Transport "connection refused")) eq_refl).
Defined.

(** C6: when [logout] returns an error (the remote call failed, or its
    answer is an error envelope), the stored tokens are still there. *)
Theorem C6_failed_logout_keeps_tokens (parse_json : string -> option json)
    (w w' : World) (e : Errors) :
  logout parse_json w = (w', Err e) -> get_tokens (client w') = get_tokens (client w).
Proof.
  rewrite logout_cases.
  pose proof (send_request_keeps_client parse_json _ Logout_endpoint w) as Hc.
  destruct (send_request parse_json Logout_endpoint w) as [w1 r]. simpl in *.
  destruct r as [[v|e']|e']; intros H; inversion H; subst; rewrite Hc; reflexivity.
Qed.

Lemma C6_witness :
  get_tokens (client (fst (logout no_json (logged_in_world offline_net)))) = Some sample_tokens.
Proof.
  exact (C6_failed_logout_keeps_tokens no_json (logged_in_world offline_net) _
           (Http (Transport "connection refused")) eq_refl).
Defined.

(** ** C7: login then logout clears the tokens *)

(** C7: a successful [login] followed by a successful [logout] leaves the
    client with no stored tokens. *)
Theorem C7_login_then_logout_clears_tokens (parse_json : string -> option json)
    (u p : string) (w w1 w2 : World) (t : AuthTokens) (r : unit) :
  login parse_json u p w = (w1, Ok t) ->
  logout parse_json w1 = (w2, Ok r) ->
  get_tokens (client w1) = Some t /\ get_tokens (client w2) = None.
Proof.
  intros Hl Ho. split.
  - rewrite login_cases in Hl.
    destruct (snd (send_flatten parse_json _ w)) as [lr|e]; inversion Hl; subst.
    reflexivity.
  - rewrite logout_cases in Ho.
    destruct (snd (send_request parse_json Logout_endpoint w1)) as [[v|e]|e];
      inversion Ho; subst; reflexivity.
Qed.

Lemma C7_witness :
  get_tokens (client (fst (login sample_parse "test" "hunter1" (logged_out_world echo_net))))
    = Some sample_tokens
  /\ get_tokens (client (fst (logout sample_parse
        (fst (login sample_parse "test" "hunter1" (logged_out_world echo_net)))))) = None.
Proof.
  exact (C7_login_then_logout_clears_tokens sample_parse "test" "hunter1"
           (logged_out_world echo_net) _ _ sample_tokens tt eq_refl eq_refl).
Defined.

(** ** C9: which public operations write the tokens *)

Lemma ping_keeps_client (w : World) :
  client (fst (ping w)) = client w.
Proof.
  destruct w as [[b t] n s]. unfold ping; st_unfold; simpl.
  destruct (Url_join b "/ping") as [u|e]; simpl; [|reflexivity].
  destruct (n (request GET u)) as [res|e]; simpl; [|reflexivity].
  destruct (String.eqb (res_text res) "pong"); reflexivity.
Qed.

(** C9 (counterexample): the public [set_tokens] also writes the stored
    pair, and it can change the session token alone. *)
Lemma C9_counterexample :
  let w := logged_in_world offline_net in
  let w' := fst (run_op no_json
                   (OpSetTokens (Some {| session := "othersession";
                                          refresh := refresh sample_tokens |})) w) in
  get_tokens (client w') <> get_tokens (client w)
  /\ option_map refresh (get_tokens (client w')) = option_map refresh (get_tokens (client w)).
Proof. simpl. split; [discriminate | reflexivity]. Qed.

(** C9 (amended): every public operation of [Client] other than [login],
    [logout], [refresh_tokens] and [set_tokens] (that is [get_tokens],
    [ping], and any endpoint sent through [send_request]) leaves the client,
    and so its stored tokens, unchanged. *)
Theorem C9_other_operations_keep_tokens (parse_json : string -> option json)
    (op : ClientOp) (w : World) :
  is_credential_op op = false ->
  client (fst (run_op parse_json op w)) = client w.
Proof.
  destruct op as [|t|u p| | | |R FR e]; simpl; intros H; try discriminate.
  - reflexivity.
  - apply ping_keeps_client.
  - unfold st_bind.
    pose proof (send_request_keeps_client parse_json R e w) as Hc.
    destruct (send_request parse_json e w) as [w1 [x|x]]; exact Hc.
Qed.

Lemma C9_witness :
  client (fst (run_op no_json (OpSendRequest _ _ Logout_endpoint) (logged_in_world echo_net)))
    = client (logged_in_world echo_net).
Proof.
  exact (C9_other_operations_keep_tokens no_json (OpSendRequest _ _ Logout_endpoint)
           (logged_in_world echo_net) eq_refl).
Defined.

(** ** C10: the bearer goes out whenever tokens are stored *)

(** C10: when the client holds tokens [t], every request [send_request]
    sends carries [t]'s session token as its bearer, whatever the
    endpoint's [require_auth] flag: the flag changes nothing then. *)
Theorem C10_bearer_whenever_tokens_stored (parse_json : string -> option json)
    R `{FromResponse R} (endpoint : Endpoint R) (w : World) (t : AuthTokens) :
  get_tokens (client w) = Some t ->
  (exists reqs, sent (fst (send_request parse_json endpoint w)) = (sent w ++ reqs)%list
     /\ Forall (fun req => req_bearer req = Some (session t)) reqs)
  /\ forall b, send_request parse_json (with_require_auth endpoint b) w
               = send_request parse_json endpoint w.
Proof.
  intros Ht. split.
  - destruct (send_request_effect parse_json R endpoint w) as (_ & _ & reqs & Hs & _ & Hb).
    exists reqs. split; [exact Hs|]. rewrite Ht in Hb. exact Hb.
  - intros b. destruct w as [[bu tk] n s]. simpl in Ht. subst tk.
    reflexivity.
Qed.

Lemma C10_witness :
  (exists reqs, sent (fst (send_request no_json (with_require_auth Logout_endpoint false)
                            (logged_in_world echo_net)))
                = (sent (logged_in_world echo_net) ++ reqs)%list
     /\ Forall (fun req => req_bearer req = Some (session sample_tokens)) reqs)
  /\ forall b, send_request no_json (with_require_auth (with_require_auth Logout_endpoint false) b)
                 (logged_in_world echo_net)
               = send_request no_json (with_require_auth Logout_endpoint false)
                   (logged_in_world echo_net).
Proof.
  exact (C10_bearer_whenever_tokens_stored no_json _ (with_require_auth Logout_endpoint false)
           (logged_in_world echo_net) sample_tokens eq_refl).
Defined.

(** ** Further properties of the envelope decoding *)

(** The envelope tagged ["ok"] is read from the entries other than
    [result]. *)
Lemma ok_envelope_content {T E} `{Deserialize T} `{Deserialize E} (es : list (string * json)) :
  count_key tag_name es = 1%nat -> In (tag_name, JString "ok") es ->
  deserialize (A := ApiResult T E) (JObject es)
  = v <-? deserialize (A := T) (JObject (remove_key tag_name es)) ;;
    Ok (mk_ApiResult (Ok v)).
Proof.
  intros Hc Hin.
  unfold deserialize at 1, Deserialize_ApiResult, ApiResultDef_deserialize, tagged_content.
  rewrite (tagged_visit_map_one es (JString "ok") TagOk [] Hc Hin eq_refl).
  simpl. destruct (deserialize (JObject (remove_key tag_name es))); reflexivity.
Qed.

Lemma de_list_items_some_err {A} (d : json -> result A DeError) items x e :
  In x items -> d x = Err e -> exists e', de_list_items d items = Err e'.
Proof.
  induction items as [|y items IH]; simpl; [tauto|].
  intros [Heq|Hin] Hx.
  - subst y. rewrite Hx. eexists; reflexivity.
  - destruct (d y); simpl; [|eexists; reflexivity].
    destruct (IH Hin Hx) as [e' He']. rewrite He'. eexists; reflexivity.
Qed.

(** [impl<T> FromResponse for Result<T, Errors>]: the payload of an
    envelope tagged ["ok"] is not a [data] field but the whole object
    without its [result] entry (so [{"result": "ok", "token": ..}] is read
    as a [LoginResponse] with its [token] field); the call succeeds with
    that payload exactly when those remaining entries decode as [T]. *)
Theorem ok_envelope_payload_is_remaining_fields {T} `{Deserialize T}
    (es : list (string * json)) :
  count_key tag_name es = 1%nat -> In (tag_name, JString "ok") es ->
  from_json (Result T) (JObject es)
  = v <-? deserialize (A := T) (JObject (remove_key tag_name es)) ;; Ok (Ok v).
Proof.
  intros Hc Hin. unfold from_json.
  change (@deserialize _ (@FR_deserialize (Result T) FromResponse_Result) (JObject es))
    with (deserialize (A := ApiResult T ApiErrors) (JObject es)).
  rewrite (ok_envelope_content es Hc Hin).
  destruct (deserialize (A := T) (JObject (remove_key tag_name es))); reflexivity.
Qed.

Lemma ok_envelope_payload_is_remaining_fields_witness :
  from_json (Result LoginResponse)
    (JObject [("result", JString "ok"); ("token", tokens_json sample_tokens)])
  = Ok (Ok {| LoginResponse.tokens := sample_tokens |}).
Proof.
  rewrite (ok_envelope_payload_is_remaining_fields (T := LoginResponse)
             [("result", JString "ok"); ("token", tokens_json sample_tokens)]
             eq_refl (or_introl eq_refl)).
  reflexivity.
Defined.

(** An envelope tagged ["error"] one of whose [errors] records is not a
    valid [ApiError] (say its [id] is not a UUID) does not decode at all:
    the response is a decode failure, not an API error. *)
Theorem error_envelope_bad_record_fails_decoding {T} `{Deserialize T}
    (es : list (string * json)) (items : list json) (x : json) (e : DeError) :
  count_key tag_name es = 1%nat -> In (tag_name, JString "error") es ->
  count_key "errors" es = 1%nat -> In ("errors", JArray items) es ->
  In x items -> deserialize (A := ApiError) x = Err e ->
  exists e', from_json (Result T) (JObject es) = Err e'.
Proof.
  intros Hc Hin He Hi Hx Hd. unfold from_json.
  change (@deserialize _ (@FR_deserialize (Result T) FromResponse_Result) (JObject es))
    with (deserialize (A := ApiResult T ApiErrors) (JObject es)).
  rewrite (error_envelope_content es Hc Hin).
  assert (Hne : String.eqb "errors" tag_name = false) by reflexivity.
  unfold deserialize at 1, Deserialize_ApiErrors, fields_of. simpl map.
  rewrite (collect_fields_once "errors" (JArray items))
    by first [rewrite count_key_remove_other by exact Hne; exact He
             | exact (In_remove_other _ _ _ _ Hne Hi) | reflexivity].
  simpl. unfold defaulted, de_vec; simpl.
  destruct (de_list_items_some_err _ _ _ _ Hx Hd) as [e' He'].
  rewrite He'. eexists; reflexivity.
Qed.

Lemma error_envelope_bad_record_fails_decoding_witness :
  exists e', from_json (Result NoData)
    (JObject [("result", JString "error");
              ("errors", JArray [JObject [("id", JString "not-a-uuid"); ("status", JInt 503)]])])
    = Err e'.
Proof.
  exact (error_envelope_bad_record_fails_decoding (T := NoData)
           [("result", JString "error");
            ("errors", JArray [JObject [("id", JString "not-a-uuid"); ("status", JInt 503)]])]
           [JObject [("id", JString "not-a-uuid"); ("status", JInt 503)]]
           (JObject [("id", JString "not-a-uuid"); ("status", JInt 503)]) InvalidValue
           eq_refl (or_introl eq_refl) eq_refl (or_intror (or_introl eq_refl))
           (or_introl eq_refl) eq_refl).
Defined.

(** [impl<T> FromResponse for Vec<Result<T, Errors>>]: a bare array of
    envelopes decodes element by element, in order, each into [Ok] or into
    [Err(HttpWithBody)] according to its own tag; but one element that is
    not a valid envelope makes the whole response fail to decode. *)
Theorem vec_envelopes_decoded_independently {T} `{Deserialize T} (items : list json) :
  (forall envs,
     Forall2 (fun x a => deserialize (A := ApiResult T ApiErrors) x = Ok a) items envs ->
     from_json (list (Result T)) (JArray items)
     = Ok (map (fun a => map_err HttpWithBody (into_result a)) envs))
  /\ (forall x e, In x items -> deserialize (A := ApiResult T ApiErrors) x = Err e ->
      exists e', from_json (list (Result T)) (JArray items) = Err e').
Proof.
  unfold from_json.
  change (@deserialize _ (@FR_deserialize (list (Result T)) FromResponse_Vec) (JArray items))
    with (de_list_items (deserialize (A := ApiResult T ApiErrors)) items).
  split.
  - intros envs Hf. rewrite (de_list_items_Forall2 _ _ _ Hf). reflexivity.
  - intros x e Hx Hd. destruct (de_list_items_some_err _ _ _ _ Hx Hd) as [e' He'].
    rewrite He'. eexists; reflexivity.
Qed.

Lemma vec_envelopes_decoded_independently_witness :
  from_json (list (Result LoginResponse))
    (JArray [JObject [("result", JString "ok"); ("token", tokens_json sample_tokens)];
             JObject [("result", JString "error")]])
  = Ok [Ok {| LoginResponse.tokens := sample_tokens |}; Err (HttpWithBody {| errors := [] |})]
  /\ exists e', from_json (list (Result LoginResponse))
       (JArray [JObject [("result", JString "ok"); ("token", tokens_json sample_tokens)];
                JObject [("result", JString "okay")]]) = Err e'.
Proof.
  split.
  - apply (proj1 (vec_envelopes_decoded_independently (T := LoginResponse)
             [JObject [("result", JString "ok"); ("token", tokens_json sample_tokens)];
              JObject [("result", JString "error")]])
             [mk_ApiResult (Ok {| LoginResponse.tokens := sample_tokens |});
              mk_ApiResult (Err {| errors := [] |})]).
    constructor; [reflexivity|]. constructor; [reflexivity|]. constructor.
  - exact (proj2 (vec_envelopes_decoded_independently (T := LoginResponse)
             [JObject [("result", JString "ok"); ("token", tokens_json sample_tokens)];
              JObject [("result", JString "okay")]])
             (JObject [("result", JString "okay")]) (UnknownVariant "okay")
             (or_intror (or_introl eq_refl)) eq_refl).
Defined.

(** ** Further properties of the dispatch *)

(** [send_request] step by step: join the path, build the request, attach
    the bearer or stop, send, decode. *)
Lemma send_request_unfold (parse_json : string -> option json)
    R `{FromResponse R} (endpoint : Endpoint R) (w : World) :
  send_request parse_json endpoint w =
  match Url_join (base_url (client w)) (ep_path endpoint) with
  | Err pe => (w, Err (ParseUrl pe))
  | Ok u =>
      match get_tokens (client w) with
      | Some t =>
          let req := bearer_auth (endpoint_request endpoint u) (session t) in
          (after_send w req, decode_answer parse_json (net w req))
      | None =>
          if ep_require_auth endpoint then (w, Err MissingTokens)
          else (after_send w (endpoint_request endpoint u),
                decode_answer parse_json (net w (endpoint_request endpoint u)))
      end
  end.
Proof.
  destruct w as [[b t] n s].
  unfold send_request, get_tokens, decode_answer, after_send, endpoint_request; st_unfold;
    simpl.
  destruct (Url_join b (ep_path endpoint)) as [u|pe]; simpl; [|reflexivity].
  destruct t as [tok|]; simpl; [|destruct (ep_require_auth endpoint); simpl; [reflexivity|]];
    repeat (match goal with
            | |- context [n ?q] => destruct (n q) eqn:?
            | |- context [parse_json ?x] => destruct (parse_json x) eqn:?
            | |- context [@deserialize ?A ?i ?j] => destruct (@deserialize A i j) eqn:?
            end; simpl); reflexivity.
Qed.

Lemma sent_not_self (w : World) req : sent w <> (sent w ++ [req])%list.
Proof. intros Hs. apply (f_equal (@List.length _)) in Hs. rewrite length_app in Hs. simpl in Hs. lia. Qed.

Lemma send_request_sent_one (parse_json : string -> option json)
    R `{FromResponse R} (endpoint : Endpoint R) (w : World) (req : Request) :
  sent (fst (send_request parse_json endpoint w)) = (sent w ++ [req])%list ->
  exists u, Url_join (base_url (client w)) (ep_path endpoint) = Ok u
    /\ req = match get_tokens (client w) with
             | Some t => bearer_auth (endpoint_request endpoint u) (session t)
             | None => endpoint_request endpoint u
             end
    /\ send_request parse_json endpoint w = (after_send w req, decode_answer parse_json (net w req)).
Proof.
  rewrite send_request_unfold.
  destruct (Url_join (base_url (client w)) (ep_path endpoint)) as [u|pe];
    [|intros Hs; exfalso; exact (sent_not_self w req Hs)].
  destruct (get_tokens (client w)) as [t|].
  - simpl. intros Hs. apply app_inv_head in Hs. inversion Hs; subst. eauto.
  - destruct (ep_require_auth endpoint); simpl.
    + intros Hs; exfalso; exact (sent_not_self w req Hs).
    + intros Hs. apply app_inv_head in Hs. inversion Hs; subst. eauto.
Qed.

(** [send_request] builds the request it sends from the endpoint alone:
    its method, the path joined onto the client's base URL with the
    endpoint's query string when it has one, its JSON body and multipart
    form; the only other header is the bearer, the stored session token
    when tokens are stored and none otherwise. *)
Theorem send_request_builds_request_from_endpoint (parse_json : string -> option json)
    R `{FromResponse R} (endpoint : Endpoint R) (w : World) (req : Request) :
  sent (fst (send_request parse_json endpoint w)) = (sent w ++ [req])%list ->
  exists u, Url_join (base_url (client w)) (ep_path endpoint) = Ok u
    /\ req_method req = ep_method endpoint
    /\ req_url req = match ep_query endpoint with Some q => query_qs u q | None => u end
    /\ req_body req = ep_body endpoint
    /\ req_multipart req = ep_multipart endpoint
    /\ req_bearer req = option_map session (get_tokens (client w)).
Proof.
  intros Hs. destruct (send_request_sent_one parse_json R endpoint w req Hs) as (u & Hu & Hr & _).
  exists u. split; [exact Hu|]. subst req. unfold endpoint_request.
  destruct (get_tokens (client w)); simpl;
    destruct (ep_query endpoint), (ep_body endpoint), (ep_multipart endpoint); simpl;
    repeat split; reflexivity.
Qed.

Lemma send_request_builds_request_from_endpoint_witness :
  exists u, Url_join (base_url (client (logged_in_world echo_net)))
              (ep_path (Login_endpoint sample_login)) = Ok u
    /\ req_method (login_request (Some "sessiontoken")) = ep_method (Login_endpoint sample_login)
    /\ req_url (login_request (Some "sessiontoken"))
       = match ep_query (Login_endpoint sample_login) with Some q => query_qs u q | None => u end
    /\ req_body (login_request (Some "sessiontoken")) = ep_body (Login_endpoint sample_login)
    /\ req_multipart (login_request (Some "sessiontoken"))
       = ep_multipart (Login_endpoint sample_login)
    /\ req_bearer (login_request (Some "sessiontoken"))
       = option_map session (get_tokens (client (logged_in_world echo_net))).
Proof.
  exact (send_request_builds_request_from_endpoint no_json _ (Login_endpoint sample_login)
           (logged_in_world echo_net) (login_request (Some "sessiontoken")) eq_refl).
Defined.

(** When the transport fails, [send_request] sends exactly one request
    (the one built from the endpoint) and returns the transport error as
    [Errors::Http]: it does not retry, and reads no body. Only a path that
    does not join onto the base URL, or missing tokens on an auth-required
    endpoint, stops it before sending, with nothing sent. The client is
    never changed. *)
Theorem send_request_transport_error_surfaces (parse_json : string -> option json)
    R `{FromResponse R} (endpoint : Endpoint R) (w : World) (te : ReqwestError) :
  (forall req, net w req = Err te) ->
  send_request parse_json endpoint w =
    match Url_join (base_url (client w)) (ep_path endpoint) with
    | Err pe => (w, Err (ParseUrl pe))
    | Ok u =>
        match get_tokens (client w) with
        | Some t => (after_send w (bearer_auth (endpoint_request endpoint u) (session t)),
                     Err (Http te))
        | None =>
            if ep_require_auth endpoint then (w, Err MissingTokens)
            else (after_send w (endpoint_request endpoint u), Err (Http te))
        end
    end.
Proof.
  intros Hn. rewrite send_request_unfold.
  destruct (Url_join (base_url (client w)) (ep_path endpoint)); [|reflexivity].
  destruct (get_tokens (client w)); [|destruct (ep_require_auth endpoint); [reflexivity|]];
    unfold decode_answer; rewrite Hn; reflexivity.
Qed.

Lemma send_request_transport_error_surfaces_witness :
  send_request no_json Logout_endpoint (logged_in_world offline_net)
  = (after_send (logged_in_world offline_net)
       (mk_Request POST (api_url "/auth/logout") None None (Some "sessiontoken")),
     Err (Http (Transport "connection refused"))).
Proof.
  exact (send_request_transport_error_surfaces no_json _ Logout_endpoint
           (logged_in_world offline_net) (Transport "connection refused") (fun _ => eq_refl)).
Defined.


(** The helpers [json_api_result], [json_api_results] and
    [json_api_result_vec] of [src/common.rs] read a response exactly as the
    dispatch does: for the answer to the request an endpoint sent, they give
    what the generated [send()] (flattened for [Result<T>]) and
    [send_request] (for pages and bare arrays) return. *)
Theorem legacy_helpers_agree_with_send (parse_json : string -> option json)
    T `{Deserialize T} (w : World) (req : Request) (res : Response) :
  net w req = Ok res ->
  (forall e : Endpoint (Result T),
     sent (fst (send_request parse_json e w)) = (sent w ++ [req])%list ->
     snd (send_flatten parse_json e w) = snd (json_api_result parse_json res w))
  /\ (forall e : Endpoint (Results (Result T)),
     sent (fst (send_request parse_json e w)) = (sent w ++ [req])%list ->
     snd (send_request parse_json e w) = snd (json_api_results parse_json res w))
  /\ (forall e : Endpoint (list (Result T)),
     sent (fst (send_request parse_json e w)) = (sent w ++ [req])%list ->
     snd (send_request parse_json e w) = snd (json_api_result_vec parse_json res w)).
Proof.
  intros Hn. split; [|split]; intros e Hs;
    destruct (send_request_sent_one parse_json _ e w req Hs) as (u & _ & _ & He).
  - rewrite send_flatten_cases, He, Hn. simpl.
    unfold json_api_result, decode_answer; st_unfold; simpl.
    destruct (parse_json (res_text res)) as [j|]; [|reflexivity].
    destruct (deserialize (A := ApiResult T ApiErrors) j) as [[[v|x]]|x]; reflexivity.
  - rewrite He, Hn. simpl.
    unfold json_api_results, decode_answer; st_unfold; simpl.
    destruct (parse_json (res_text res)) as [j|]; [|reflexivity].
    destruct (deserialize (A := Results (ApiResult T ApiErrors)) j); reflexivity.
  - rewrite He, Hn. simpl.
    unfold json_api_result_vec, decode_answer; st_unfold; simpl.
    destruct (parse_json (res_text res)) as [j|]; [|reflexivity].
    destruct (deserialize (A := list (ApiResult T ApiErrors)) j); reflexivity.
Qed.

Lemma legacy_helpers_agree_with_send_witness :
  snd (send_flatten sample_parse (Login_endpoint sample_login) (logged_out_world echo_net))
  = snd (json_api_result sample_parse (mk_Response 200 "/auth/login") (logged_out_world echo_net))
  /\ snd (send_request sample_parse login_as_page (logged_out_world echo_net))
  = snd (json_api_results sample_parse (mk_Response 200 "/auth/login") (logged_out_world echo_net))
  /\ snd (send_request sample_parse login_as_list (logged_out_world echo_net))
  = snd (json_api_result_vec sample_parse (mk_Response 200 "/auth/login")
           (logged_out_world echo_net)).
Proof.
  destruct (legacy_helpers_agree_with_send sample_parse LoginResponse (logged_out_world echo_net)
              (login_request None) (mk_Response 200 "/auth/login") eq_refl) as (H1 & H2 & H3).
  split; [exact (H1 (Login_endpoint sample_login) eq_refl)|].
  split; [exact (H2 login_as_page eq_refl) | exact (H3 login_as_list eq_refl)].
Defined.

Lemma decode_answer_ok_result (parse_json : string -> option json) T `{Deserialize T}
    (a : result Response ReqwestError) (v : T) :
  decode_answer (R := Result T) parse_json a = Ok (Ok v) ->
  exists resp j, a = Ok resp /\ parse_json (res_text resp) = Some j
    /\ deserialize (A := ApiResult T ApiErrors) j = Ok (mk_ApiResult (Ok v)).
Proof.
  unfold decode_answer. destruct a as [resp|te]; [|discriminate].
  destruct (parse_json (res_text resp)) as [j|] eqn:Hp; [|discriminate].
  destruct (@deserialize (FR_Response (Result T)) FR_deserialize j) as [[[x|x]]|x] eqn:Hd;
    simpl; intros Hv; inversion Hv; subst.
  exists resp, j. split; [reflexivity|]. split; [exact Hp|]. exact Hd.
Qed.

Lemma st_bind_ret_fst {A} (m : ST A) (w : World) :
  fst ((_ <- m ;; st_ret tt) w) = fst (m w).
Proof. unfold st_bind, st_ret. destruct (m w) as [w1 [a|e]]; reflexivity. Qed.

(** [login] sends one request, a POST to [/auth/login] with the JSON body
    [{"username", "password"}] (and the stored session as bearer, if any);
    when it succeeds, the pair it returns is the one now stored, it is the
    [token] field of the server's ok envelope, and the base URL is kept. A
    base URL that does not join fails with no request. *)
Theorem login_sends_credentials_and_stores_tokens (parse_json : string -> option json)
    (u p : string) (w : World) :
  match Url_join (base_url (client w)) "/auth/login" with
  | Err pe => login parse_json u p w = (w, Err (ParseUrl pe))
  | Ok url =>
      let req := mk_Request POST url
                   (Some (JObject [("username", JString u); ("password", JString p)])) None
                   (option_map session (get_tokens (client w))) in
      sent (fst (login parse_json u p w)) = (sent w ++ [req])%list
      /\ (forall w' t, login parse_json u p w = (w', Ok t) ->
            get_tokens (client w') = Some t /\ base_url (client w') = base_url (client w)
            /\ exists resp j, net w req = Ok resp /\ parse_json (res_text resp) = Some j
               /\ deserialize (A := ApiResult LoginResponse ApiErrors) j
                  = Ok (mk_ApiResult (Ok {| LoginResponse.tokens := t |})))
  end.
Proof.
  rewrite login_cases, send_flatten_cases, send_request_unfold.
  change (ep_path (Login_endpoint _)) with "/auth/login".
  change (ep_require_auth (Login_endpoint _)) with false.
  destruct (Url_join (base_url (client w)) "/auth/login") as [url|pe]; [|reflexivity].
  destruct (get_tokens (client w)) as [t|]; cbv zeta;
    (match goal with |- context [decode_answer ?pj ?a] =>
       destruct (decode_answer pj a) as [[lr|e]|e] eqn:Hd end);
    simpl; (split; [reflexivity|]); intros w' t' Hl; inversion Hl; subst;
    destruct (decode_answer_ok_result _ _ _ _ Hd) as (resp & j & Hn & Hp & Hj);
    (split; [reflexivity|]); (split; [reflexivity|]);
    exists resp, j; (split; [exact Hn|]); (split; [exact Hp|]);
    destruct lr; exact Hj.
Qed.

Lemma login_sends_credentials_and_stores_tokens_witness :
  sent (fst (login sample_parse "test" "hunter1" (logged_out_world echo_net)))
    = [login_request None]
  /\ get_tokens (client (fst (login sample_parse "test" "hunter1" (logged_out_world echo_net))))
    = Some sample_tokens.
Proof.
  destruct (login_sends_credentials_and_stores_tokens sample_parse "test" "hunter1"
              (logged_out_world echo_net)) as [Hs Hok].
  split; [exact Hs|].
  exact (proj1 (Hok _ sample_tokens eq_refl)).
Defined.

(** [refresh_tokens] with no stored tokens fails with [MissingTokens]
    before anything is sent and leaves the world as it is; with stored
    tokens it sends one request, a POST to [/auth/refresh] whose JSON body
    [{"token"}] holds the stored refresh token and whose bearer is the
    stored session token. *)
Theorem refresh_tokens_sends_refresh_token (parse_json : string -> option json) (w : World) :
  (get_tokens (client w) = None -> refresh_tokens parse_json w = (w, Err MissingTokens))
  /\ forall t, get_tokens (client w) = Some t ->
     match Url_join (base_url (client w)) "/auth/refresh" with
     | Err pe => refresh_tokens parse_json w = (w, Err (ParseUrl pe))
     | Ok url =>
         sent (fst (refresh_tokens parse_json w))
         = (sent w ++ [mk_Request POST url (Some (JObject [("token", JString (refresh t))]))
                          None (Some (session t))])%list
     end.
Proof.
  split.
  - intros Ht. rewrite refresh_tokens_cases, Ht. reflexivity.
  - intros t Ht. rewrite refresh_tokens_cases, Ht. cbv zeta.
    rewrite send_flatten_cases, send_request_unfold, Ht.
    change (ep_path (RefreshToken_endpoint _)) with "/auth/refresh".
    destruct (Url_join (base_url (client w)) "/auth/refresh") as [url|pe]; [|reflexivity].
    cbv zeta.
    match goal with |- context [decode_answer ?pj ?a] =>
      destruct (decode_answer pj a) as [[r|e]|e] end; reflexivity.
Qed.

Lemma refresh_tokens_sends_refresh_token_witness :
  refresh_tokens no_json (logged_out_world echo_net)
    = (logged_out_world echo_net, Err MissingTokens)
  /\ sent (fst (refresh_tokens no_json (logged_in_world echo_net)))
    = [mk_Request POST (api_url "/auth/refresh")
         (Some (JObject [("token", JString "refreshtoken")])) None (Some "sessiontoken")].
Proof.
  split.
  - exact (proj1 (refresh_tokens_sends_refresh_token no_json (logged_out_world echo_net))
             eq_refl).
  - exact (proj2 (refresh_tokens_sends_refresh_token no_json (logged_in_world echo_net))
             sample_tokens eq_refl).
Defined.

(** [ping] step by step. *)
Lemma ping_unfold (w : World) :
  ping w =
  match Url_join (base_url (client w)) "/ping" with
  | Err pe => (w, Err (ParseUrl pe))
  | Ok url =>
      (after_send w (mk_Request GET url None None None),
       match net w (mk_Request GET url None None None) with
       | Err e => Err (Http e)
       | Ok res => if String.eqb (res_text res) "pong" then Ok tt else Err PingError
       end)
  end.
Proof.
  destruct w as [[b t] n s]. unfold ping, after_send, request; st_unfold; simpl.
  destruct (Url_join b "/ping") as [u|pe]; simpl; [|reflexivity].
  match goal with |- context [n ?q] => destruct (n q) as [res|e] end; simpl; [|reflexivity].
  destruct (String.eqb (res_text res) "pong"); reflexivity.
Qed.

(** [ping] does the same whatever tokens are stored. It sends at most one
    request, a GET to [/ping] with no query, body, form or bearer. It
    succeeds exactly when the server answers the text [pong]; any other
    text is [PingError]. *)
Theorem ping_checks_pong_without_credentials (w : World) (t : option AuthTokens) :
  ping (with_tokens w t) = (with_tokens (fst (ping w)) t, snd (ping w))
  /\ (exists reqs, sent (fst (ping w)) = (sent w ++ reqs)%list /\ (List.length reqs <= 1)%nat
        /\ Forall (fun r => req_method r = GET /\ url_path (req_url r) = "/ping"
                            /\ url_query (req_url r) = None /\ req_body r = None
                            /\ req_multipart r = None /\ req_bearer r = None) reqs)
  /\ (snd (ping w) = Ok tt <->
        exists url res, Url_join (base_url (client w)) "/ping" = Ok url
          /\ net w (mk_Request GET url None None None) = Ok res /\ res_text res = "pong")
  /\ (forall url res, Url_join (base_url (client w)) "/ping" = Ok url ->
        net w (mk_Request GET url None None None) = Ok res -> res_text res <> "pong" ->
        snd (ping w) = Err PingError).
Proof.
  rewrite !ping_unfold. destruct w as [[b t0] n s]. unfold with_tokens, after_send; simpl.
  destruct (Url_join b "/ping") as [u|pe] eqn:Hj.
  - split.
    { destruct (n (mk_Request GET u None None None)); reflexivity. }
    split.
    { exists [mk_Request GET u None None None]. split; [reflexivity|]. split; [simpl; lia|].
      constructor; [|constructor]. simpl.
      unfold Url_join in Hj. destruct (cannot_be_a_base b); inversion Hj; subst; simpl.
      repeat split. }
    split.
    + split.
      * destruct (n (mk_Request GET u None None None)) as [res|e] eqn:Hn0; [|discriminate].
        destruct (String.eqb (res_text res) "pong") eqn:E; [|discriminate].
        intros _. exists u, res. apply String.eqb_eq in E. auto.
      * intros (url & res & Hu & Hn & Ht). inversion Hu; subst url. rewrite Hn.
        rewrite Ht. reflexivity.
    + intros url res Hu Hn Ht. inversion Hu; subst url. simpl. rewrite Hn.
      apply String.eqb_neq in Ht. rewrite Ht. reflexivity.
  - split; [reflexivity|]. split.
    { exists []. rewrite app_nil_r. split; [reflexivity|]. split; [simpl; lia|constructor]. }
    split.
    + split; [discriminate|]. intros (url & res & Hu & _). discriminate.
    + intros url res Hu. discriminate.
Qed.

Lemma ping_checks_pong_without_credentials_witness :
  snd (ping (logged_in_world pong_net)) = Ok tt
  /\ snd (ping (logged_out_world echo_net)) = Err PingError.
Proof.
  split.
  - destruct (ping_checks_pong_without_credentials (logged_in_world pong_net) None)
      as (_ & _ & [_ Hpong] & _).
    apply Hpong. exists (api_url "/ping"), (mk_Response 200 "pong").
    split; [reflexivity|]. split; reflexivity.
  - destruct (ping_checks_pong_without_credentials (logged_out_world echo_net)
                (Some sample_tokens)) as (_ & _ & _ & Hother).
    exact (Hother (api_url "/ping") (mk_Response 200 "/ping") eq_refl eq_refl
             ltac:(discriminate)).
Defined.

Lemma de_list_items_strings (rs : list string) :
  de_list_items de_string (map JString rs) = Ok rs.
Proof. induction rs as [|r rs IH]; simpl; [reflexivity|]. rewrite IH. reflexivity. Qed.

(** [CheckToken.send] with stored tokens sends one GET to [/auth/check]
    with the session token as bearer, whatever the answer. An ok envelope
    in which [isAuthenticated], [roles] and [permissions] (camelCase on the
    wire) each occur once, in any order and among any other keys, gives
    exactly those values. *)
Theorem check_token_sends_bearer_and_reads_permissions (parse_json : string -> option json)
    (w : World) (t : AuthTokens) (url : Url) :
  get_tokens (client w) = Some t ->
  Url_join (base_url (client w)) "/auth/check" = Ok url ->
  fst (check_token parse_json w) = after_send w (mk_Request GET url None None (Some (session t)))
  /\ (forall resp es b rs ps,
        net w (mk_Request GET url None None (Some (session t))) = Ok resp ->
        parse_json (res_text resp) = Some (JObject es) ->
        count_key "result" es = 1%nat -> In ("result", JString "ok") es ->
        count_key "isAuthenticated" es = 1%nat -> In ("isAuthenticated", JBool b) es ->
        count_key "roles" es = 1%nat -> In ("roles", JArray (map JString rs)) es ->
        count_key "permissions" es = 1%nat -> In ("permissions", JArray (map JString ps)) es ->
        snd (check_token parse_json w)
        = Ok {| is_authenticated := b; roles := rs; permissions := ps |}).
Proof.
  intros Ht Hu. unfold check_token.
  rewrite send_flatten_cases, send_request_unfold, Ht.
  change (ep_path CheckToken_endpoint) with "/auth/check". rewrite Hu. cbv zeta.
  replace (bearer_auth (endpoint_request CheckToken_endpoint url) (session t))
    with (mk_Request GET url None None (Some (session t))) by reflexivity.
  split; [reflexivity|].
  intros resp es b rs ps Hn Hp Cr Ir Ca Ia Co Io Cp Ip. simpl.
  unfold decode_answer. rewrite Hn, Hp.
  cbn [FR_deserialize FR_Response FromResponse_Result].
  rewrite (ok_envelope_content (T := CheckTokenResponse) (E := ApiErrors) es Cr Ir).
  set (rest := remove_key tag_name es).
  assert (C : forall k, String.eqb k tag_name = false -> count_key k rest = count_key k es)
    by (intros k Hk; apply count_key_remove_other; exact Hk).
  destruct (unique_fields_slots (map fst CheckTokenResponse_fields) rest) as [s [Hs Hsl]].
  { intros k Hk. rewrite C.
    - revert k Hk. fields_at_most_once.
    - destruct (String.eqb k tag_name) eqn:E; [|reflexivity].
      apply String.eqb_eq in E. subst k. discriminate. }
  unfold deserialize at 1, Deserialize_CheckTokenResponse, fields_of. fold rest. rewrite Hs.
  simpl result_bind. unfold required.
  rewrite (proj1 (Hsl "isAuthenticated" eq_refl) _ (In_remove_other "isAuthenticated" tag_name _ es eq_refl Ia)),
          (proj1 (Hsl "roles" eq_refl) _ (In_remove_other "roles" tag_name _ es eq_refl Io)),
          (proj1 (Hsl "permissions" eq_refl) _ (In_remove_other "permissions" tag_name _ es eq_refl Ip)).
  unfold de_vec. simpl. rewrite !de_list_items_strings. reflexivity.
Qed.

Lemma check_token_sends_bearer_and_reads_permissions_witness :
  fst (check_token check_parse_reordered (logged_in_world echo_net))
  = after_send (logged_in_world echo_net)
      (mk_Request GET (api_url "/auth/check") None None (Some "sessiontoken"))
  /\ snd (check_token check_parse_reordered (logged_in_world echo_net))
  = Ok {| is_authenticated := false; roles := []; permissions := ["manga.view"; "user.list"] |}.
Proof.
  destruct (check_token_sends_bearer_and_reads_permissions check_parse_reordered
              (logged_in_world echo_net) sample_tokens (api_url "/auth/check") eq_refl eq_refl)
    as [Hs Hr].
  split; [exact Hs|].
  exact (Hr (mk_Response 200 "/auth/check") _ false [] ["manga.view"; "user.list"]
            eq_refl eq_refl eq_refl ltac:(in_list) eq_refl ltac:(in_list)
            eq_refl ltac:(in_list) eq_refl ltac:(in_list)).
Defined.

(** Every public operation of [Client] ([get_tokens], [set_tokens],
    [login], [logout], [refresh_tokens], [ping] and any endpoint's
    [send_request]) sends at most one HTTP request: none of them retries. *)
Theorem run_op_sends_at_most_one_request (parse_json : string -> option json)
    (op : ClientOp) (w : World) :
  exists reqs, sent (fst (run_op parse_json op w)) = (sent w ++ reqs)%list
    /\ (List.length reqs <= 1)%nat.
Proof.
  assert (Hsr : forall R (FR : FromResponse R) (e : Endpoint R) w,
             exists reqs, sent (fst (send_request parse_json e w)) = (sent w ++ reqs)%list
               /\ (List.length reqs <= 1)%nat).
  { intros R FR e w0. destruct (send_request_effect parse_json R e w0) as (_ & _ & reqs & Hs & Hl & _).
    exists reqs. split; assumption. }
  destruct op as [|t|u p| | | |R FR e]; simpl.
  - exists []. rewrite app_nil_r. split; [reflexivity | simpl; lia].
  - exists []. rewrite app_nil_r. split; [reflexivity | simpl; lia].
  - rewrite st_bind_ret_fst, login_cases, send_flatten_cases.
    destruct (Hsr _ _ (Login_endpoint {| username := u; password := p |}) w) as (reqs & Hs & Hl).
    exists reqs. split; [|exact Hl].
    destruct (snd (send_request parse_json _ w)) as [[x|x]|x]; simpl; exact Hs.
  - rewrite logout_cases.
    destruct (Hsr _ _ Logout_endpoint w) as (reqs & Hs & Hl).
    exists reqs. split; [|exact Hl].
    destruct (snd (send_request parse_json _ w)) as [[x|x]|x]; simpl; exact Hs.
  - rewrite st_bind_ret_fst, refresh_tokens_cases.
    destruct (get_tokens (client w)) as [t|].
    + cbv zeta. rewrite send_flatten_cases.
      destruct (Hsr _ _ (RefreshToken_endpoint {| refresh_token := refresh t |}) w)
        as (reqs & Hs & Hl).
      exists reqs. split; [|exact Hl].
      destruct (snd (send_request parse_json _ w)) as [[x|x]|x]; simpl; exact Hs.
    + exists []. rewrite app_nil_r. split; [reflexivity | simpl; lia].
  - destruct w as [[b t] n s]. unfold ping; st_unfold; simpl.
    destruct (Url_join b "/ping") as [u|pe]; simpl.
    + exists [request GET u]. split; [|simpl; lia].
      match goal with |- context [n ?q] => destruct (n q) as [res|x] end; simpl;
        [destruct (String.eqb _ _)|]; reflexivity.
    + exists []. rewrite app_nil_r. split; [reflexivity | simpl; lia].
  - rewrite st_bind_ret_fst. exact (Hsr R FR e w).
Qed.

(** An [ApiError] read from a map whose [id] and [status] each occur once. *)
Lemma ApiError_decodes_fields (es : list (string * json)) (idtxt : string) (u : Uuid)
    (z : Z) (ot od : option string) :
  count_key "id" es = 1%nat -> In ("id", JString idtxt) es -> Uuid_parse_str idtxt = Some u ->
  count_key "status" es = 1%nat -> In ("status", JInt z) es -> (i32_min <= z <= i32_max)%Z ->
  (count_key "title" es = 0%nat /\ ot = None)
  \/ (count_key "title" es = 1%nat
      /\ (In ("title", JNull) es /\ ot = None \/ exists s, ot = Some s /\ In ("title", JString s) es)) ->
  (count_key "detail" es = 0%nat /\ od = None)
  \/ (count_key "detail" es = 1%nat
      /\ (In ("detail", JNull) es /\ od = None \/ exists s, od = Some s /\ In ("detail", JString s) es)) ->
  deserialize (A := ApiError) (JObject es)
  = Ok {| id := u; status := z; title := ot; detail := od |}.
Proof.
  intros Ci Ii Hu Cs Is Hz Htl Hdt.
  assert (Ct : (count_key "title" es <= 1)%nat) by (destruct Htl as [[H _]|[H _]]; lia).
  assert (Cd : (count_key "detail" es <= 1)%nat) by (destruct Hdt as [[H _]|[H _]]; lia).
  destruct (unique_fields_slots (map fst ApiError_fields) es) as [s [Hs Hsl]].
  { fields_at_most_once. }
  unfold deserialize, Deserialize_ApiError, fields_of. rewrite Hs. simpl result_bind.
  unfold required, optional.
  rewrite (proj1 (Hsl "id" eq_refl) _ Ii), (proj1 (Hsl "status" eq_refl) _ Is).
  unfold de_uuid. rewrite Hu, (de_i32_in_range z Hz). simpl result_bind.
  destruct Htl as [[Hc ->]|[Hc [[Hin ->]|[s1 [-> Hin]]]]];
    [rewrite (proj2 (Hsl "title" eq_refl) Hc) | rewrite (proj1 (Hsl "title" eq_refl) _ Hin)
    | rewrite (proj1 (Hsl "title" eq_refl) _ Hin)]; simpl result_bind;
  (destruct Hdt as [[Hc' ->]|[Hc' [[Hin' ->]|[s2 [-> Hin']]]]];
    [rewrite (proj2 (Hsl "detail" eq_refl) Hc') | rewrite (proj1 (Hsl "detail" eq_refl) _ Hin')
    | rewrite (proj1 (Hsl "detail" eq_refl) _ Hin')]); reflexivity.
Qed.

Lemma ApiError_status_out_of_range (es : list (string * json)) (z : Z) :
  count_key "status" es = 1%nat -> In ("status", JInt z) es -> (z < i32_min \/ i32_max < z)%Z ->
  exists e, deserialize (A := ApiError) (JObject es) = Err e.
Proof.
  intros Cs Is Hz.
  unfold deserialize, Deserialize_ApiError, fields_of.
  destruct (collect_fields (map fst ApiError_fields) es []) as [s|e] eqn:Hs;
    [|eexists; reflexivity].
  simpl result_bind. unfold required.
  destruct (slot s "id") as [j|]; [|eexists; reflexivity].
  destruct (de_uuid j); simpl; [|eexists; reflexivity].
  rewrite (collect_fields_ok_slot _ _ _ _ "status" _ Hs eq_refl Cs Is).
  unfold de_i32.
  replace (Z.leb i32_min z && Z.leb z i32_max)%bool with false; [eexists; reflexivity|].
  symmetry. apply andb_false_iff.
  destruct Hz as [Hl|Hl]; [left; apply Z.leb_gt; exact Hl | right; apply Z.leb_gt; exact Hl].
Qed.

(** An [ApiError] record needs only [id] (a UUID) and [status], in any
    order and among any other keys; a [title] or [detail] that is absent
    or [null] is [None], one that is a string is that string, each
    independently of the other. A [status] outside the [i32] range is
    rejected, whatever the other entries. *)
Theorem api_error_title_detail_optional :
  (forall (es : list (string * json)) (idtxt : string) (u : Uuid) (z : Z)
          (ot od : option string),
    count_key "id" es = 1%nat -> In ("id", JString idtxt) es -> Uuid_parse_str idtxt = Some u ->
    count_key "status" es = 1%nat -> In ("status", JInt z) es -> (i32_min <= z <= i32_max)%Z ->
    (count_key "title" es = 0%nat /\ ot = None)
    \/ (count_key "title" es = 1%nat
        /\ (In ("title", JNull) es /\ ot = None
            \/ exists s, ot = Some s /\ In ("title", JString s) es)) ->
    (count_key "detail" es = 0%nat /\ od = None)
    \/ (count_key "detail" es = 1%nat
        /\ (In ("detail", JNull) es /\ od = None
            \/ exists s, od = Some s /\ In ("detail", JString s) es)) ->
    deserialize (A := ApiError) (JObject es)
    = Ok {| id := u; status := z; title := ot; detail := od |})
  /\ (forall (es : list (string * json)) (z : Z),
    count_key "status" es = 1%nat -> In ("status", JInt z) es ->
    (z < i32_min \/ i32_max < z)%Z ->
    exists e, deserialize (A := ApiError) (JObject es) = Err e).
Proof. split; [exact ApiError_decodes_fields | exact ApiError_status_out_of_range]. Qed.

Lemma api_error_title_detail_optional_witness :
  deserialize (A := ApiError)
    (JObject [("status", JInt 503); ("title", JNull); ("id", JString sample_error_id);
              ("detail", JString "Servers are burning")])
  = Ok {| id := match Uuid_parse_str sample_error_id with Some u => u | None => mk_uuid 0 end;
          status := 503; title := None; detail := Some "Servers are burning" |}
  /\ exists e, deserialize (A := ApiError)
       (JObject [("title", JString "x"); ("status", JInt 2147483648);
                 ("id", JString sample_error_id)]) = Err e.
Proof.
  destruct api_error_title_detail_optional as [Hok Hrange].
  split.
  - apply (Hok [("status", JInt 503); ("title", JNull); ("id", JString sample_error_id);
                ("detail", JString "Servers are burning")] sample_error_id _ 503 None (Some "Servers are burning")
             eq_refl ltac:(in_list) eq_refl eq_refl ltac:(in_list) ltac:(i32_range)).
    + right. split; [reflexivity|]. left. split; [in_list | reflexivity].
    + right. split; [reflexivity|]. right. exists "Servers are burning".
      split; [reflexivity | in_list].
  - apply (Hrange [("title", JString "x"); ("status", JInt 2147483648);
                   ("id", JString sample_error_id)] 2147483648 eq_refl ltac:(in_list)). right. unfold i32_max. lia.
Defined.

Lemma collect_fields_slot_none names es acc s k :
  collect_fields names es acc = Ok s -> count_key k es = 0%nat -> slot acc k = None ->
  slot s k = None.
Proof.
  revert acc. induction es as [|[k' v] es IH]; intros acc Hc Hk Ha; simpl in Hc.
  - inversion Hc; subst. exact Ha.
  - rewrite count_key_cons in Hk. destruct (String.eqb k' k) eqn:Hkk; [discriminate|].
    destruct (existsb (String.eqb k') names).
    + destruct (slot acc k'); [discriminate|].
      apply (IH _ Hc Hk). simpl. rewrite Hkk. exact Ha.
    + exact (IH _ Hc Hk Ha).
Qed.

(** A page ([Results]) lacking any of [results], [limit], [offset] or
    [total] does not decode: none of them has a default. *)
Theorem results_page_requires_all_fields {T} `{Deserialize T}
    (es : list (string * json)) (f : string) :
  In f ["results"; "limit"; "offset"; "total"] -> count_key f es = 0%nat ->
  exists e, deserialize (A := Results T) (JObject es) = Err e.
Proof.
  intros Hin Hf. unfold deserialize at 1, Deserialize_Results, fields_of.
  destruct (collect_fields (map fst Results_fields) es []) as [s|e] eqn:Hc;
    [|eexists; reflexivity].
  simpl. assert (Hs : slot s f = None) by exact (collect_fields_slot_none _ _ _ _ _ Hc Hf eq_refl).
  unfold required.
  destruct Hin as [<-|[<-|[<-|[<-|[]]]]]; rewrite Hs; cbv beta;
    repeat match goal with
           | |- context [slot s ?k] => destruct (slot s k); cbv beta
           end;
    simpl; unfold result_bind;
    repeat match goal with
           | |- context [de_vec ?d ?j] => destruct (de_vec d j); cbv beta
           | |- context [de_i32 ?j] => destruct (de_i32 j); cbv beta
           end;
    eexists; reflexivity.
Qed.

Lemma results_page_requires_all_fields_witness :
  exists e, deserialize (A := Results LoginResponse)
    (JObject [("results", JArray []); ("limit", JInt 10); ("offset", JInt 0)]) = Err e.
Proof.
  exact (results_page_requires_all_fields (T := LoginResponse)
           [("results", JArray []); ("limit", JInt 10); ("offset", JInt 0)] "total"
           (or_intror (or_intror (or_intror (or_introl eq_refl)))) eq_refl).
Defined.

(** [logout] accepts both answers serde reads as an ["ok"] envelope with
    no content: [{"result": "ok"}] and the positional [["ok"]]. With stored
    tokens and a base URL that joins, it sends one POST to [/auth/logout]
    with the session token as bearer, succeeds, and clears the tokens. *)
Theorem logout_empty_ok_envelope_clears_tokens (parse_json : string -> option json)
    (w : World) (t : AuthTokens) (url : Url) (resp : Response) :
  get_tokens (client w) = Some t ->
  Url_join (base_url (client w)) "/auth/logout" = Ok url ->
  net w (mk_Request POST url None None (Some (session t))) = Ok resp ->
  parse_json (res_text resp) = Some (JObject [("result", JString "ok")])
  \/ parse_json (res_text resp) = Some (JArray [JString "ok"]) ->
  logout parse_json w
  = (with_tokens (after_send w (mk_Request POST url None None (Some (session t)))) None, Ok tt).
Proof.
  intros Ht Hu Hn Hp. rewrite logout_cases, send_request_unfold, Ht.
  change (ep_path Logout_endpoint) with "/auth/logout". rewrite Hu. cbv zeta.
  replace (bearer_auth (endpoint_request Logout_endpoint url) (session t))
    with (mk_Request POST url None None (Some (session t))) by reflexivity.
  cbn [fst snd]. unfold decode_answer. rewrite Hn.
  destruct Hp as [Hp|Hp]; rewrite Hp; reflexivity.
Qed.

Lemma logout_empty_ok_envelope_clears_tokens_witness :
  logout positional_logout_parse (logged_in_world echo_net)
  = (with_tokens (after_send (logged_in_world echo_net)
       (mk_Request POST (api_url "/auth/logout") None None (Some "sessiontoken"))) None, Ok tt).
Proof.
  exact (logout_empty_ok_envelope_clears_tokens positional_logout_parse
           (logged_in_world echo_net) sample_tokens (api_url "/auth/logout")
           (mk_Response 200 "/auth/logout") eq_refl eq_refl eq_refl (or_intror eq_refl)).
Defined.
